(** * Multicast group and subscriber maps (pkg/maps/multicast/subscribermap.go)

    A shallow embedding of the control-plane side of the two-level multicast
    table: the address codec, the subscriber value decoder, the capability
    probe and the operations of the outer (group) and inner (subscriber)
    maps.  The table service behind [*ebpf.Map] is external to the file; it
    is taken as an oracle: a script of responses consumed call by call, with
    every call recorded in a trace. *)

From Stdlib Require Import List String ZArith NArith Lia Bool Permutation.
From Stdlib Require Import Strings.Byte.
Import ListNotations.
Local Open Scope string_scope.
Local Open Scope list_scope.

Set Implicit Arguments.
Set Warnings "-register-all".

(** ** Fixed-width data *)

(** Go's [[4]byte]. *)
Record byte4 : Type := Byte4 { b0 : byte; b1 : byte; b2 : byte; b3 : byte }.

(** [a[:]]: the array seen as a slice. *)
Definition slice4 (a : byte4) : list byte := [b0 a; b1 a; b2 a; b3 a].

Definition byte4_eqb (x y : byte4) : bool :=
  Byte.eqb (b0 x) (b0 y) && Byte.eqb (b1 x) (b1 y) &&
  Byte.eqb (b2 x) (b2 y) && Byte.eqb (b3 x) (b3 y).

(** The zero value of a Go type ([var x T], [make([]T, n)] elements). *)
Class GoZero (A : Type) : Type := zero : A.

#[global] Instance byte4_zero : GoZero byte4 := Byte4 x00 x00 x00 x00.

(** [uint32(x)] for an [int] x. *)
Definition uint32 (x : Z) : Z := x mod 2 ^ 32.

(** [uint8(x)] for an unsigned x. *)
Definition uint8 (x : N) : N := (x mod 256)%N.

(** Big-endian reading of a byte slice ([byteorder.BEUint64] on 8 bytes). *)
Definition be_uint (bs : list byte) : N :=
  fold_left (fun acc b => (acc * 256 + Byte.to_N b)%N) bs 0%N.

(** ** net/netip, as far as the file uses it *)

Module netip.

(** [netip.Addr] is a 128-bit value with a tag [z]: [z0] for the zero
    [Addr], [z4] for IPv4, anything else for IPv6 (with its zone).  An IPv4
    address keeps its four octets in the low 32 bits; the constructor
    [AddrV4] holds exactly those octets. *)
Inductive Addr : Type :=
| AddrZero
| AddrV4 (a : byte4)
| AddrV6 (hi lo : N) (zone : string).

Definition Is4 (ip : Addr) : bool :=
  match ip with AddrV4 _ => true | _ => false end.

Definition Is6 (ip : Addr) : bool :=
  match ip with AddrV6 _ _ _ => true | _ => false end.

(** [ip.Is6() && ip.addr.hi == 0 && ip.addr.lo>>32 == 0xffff] *)
Definition Is4In6 (ip : Addr) : bool :=
  match ip with
  | AddrV6 hi lo _ => N.eqb hi 0 && N.eqb (N.shiftr lo 32) 0xffff
  | _ => false
  end.

Definition byte_of_N (n : N) : byte :=
  match Byte.of_N (n mod 256) with Some b => b | None => x00 end.

(** [Unmap]: an IPv4-mapped IPv6 address loses its prefix and zone. *)
Definition Unmap (ip : Addr) : Addr :=
  match ip with
  | AddrV6 hi lo _ =>
      if Is4In6 ip
      then AddrV4 (Byte4 (byte_of_N (N.shiftr lo 24)) (byte_of_N (N.shiftr lo 16))
                         (byte_of_N (N.shiftr lo 8)) (byte_of_N lo))
      else ip
  | _ => ip
  end.

(** [IsMulticast]: 224.0.0.0/4 for IPv4, ff00::/8 for IPv6. *)
Definition IsMulticast (ip : Addr) : bool :=
  let ip := if Is4In6 ip then Unmap ip else ip in
  match ip with
  | AddrV4 a => N.eqb (N.land (Byte.to_N (b0 a)) 0xf0) 0xe0
  | AddrV6 hi _ _ => N.eqb (N.shiftr hi (64 - 8)) 0xff
  | AddrZero => false
  end.

(** [As4] panics on the zero [Addr] and on an IPv6 address that is not
    IPv4-mapped: [None]. *)
Definition As4 (ip : Addr) : option byte4 :=
  match ip with
  | AddrV4 a => Some a
  | AddrV6 _ _ _ =>
      match Unmap ip with AddrV4 a => Some a | _ => None end
  | AddrZero => None
  end.

Definition AddrFrom4 (a : byte4) : Addr := AddrV4 a.

Definition AddrFrom16 (bs : list byte) : Addr :=
  AddrV6 (be_uint (firstn 8 bs)) (be_uint (skipn 8 bs)) "".

(** [AddrFromSlice]: a switch on [len(slice)]. *)
Definition AddrFromSlice (slice : list byte) : Addr * bool :=
  match slice with
  | [x0; x1; x2; x3] => (AddrFrom4 (Byte4 x0 x1 x2 x3), true)
  | _ => if Nat.eqb (List.length slice) 16 then (AddrFrom16 slice, true)
         else (AddrZero, false)
  end.

Definition Addr_eqb (x y : Addr) : bool :=
  match x, y with
  | AddrZero, AddrZero => true
  | AddrV4 a, AddrV4 b => byte4_eqb a b
  | AddrV6 h l z, AddrV6 h' l' z' => N.eqb h h' && N.eqb l l' && String.eqb z z'
  | _, _ => false
  end.

End netip.
Import netip.

(** ** Errors *)

(** The sentinels of the table service that the file tests with
    [errors.Is]. *)
Inductive sentinel : Type := ErrKeyNotExist | ErrKeyExist | ErrNotSupported.

Definition sentinel_eqb (x y : sentinel) : bool :=
  match x, y with
  | ErrKeyNotExist, ErrKeyNotExist | ErrKeyExist, ErrKeyExist
  | ErrNotSupported, ErrNotSupported => true
  | _, _ => false
  end.

(** An error value produced by the table service: a sentinel, any other
    failure (identified by its errno), or one of these wrapped by the
    service with an operation prefix. *)
Inductive svc_error : Type :=
| SvcSentinel (s : sentinel)
| SvcErrno (errno : N)
| SvcWrap (op : string) (e : svc_error).

(** An error value seen by a caller of this package: a service error handed
    through, or one made here by [fmt.Errorf format args...]; [wrapped] is
    the operand of the [%w] verb, when the format has one. *)
Inductive error : Type :=
| FromSvc (e : svc_error)
| Errorf (format : string) (args : list Addr) (wrapped : option error).

(** [errors.Is(e, target)] for a sentinel target, along the wrap chain. *)
Fixpoint svc_Is (e : svc_error) (target : sentinel) : bool :=
  match e with
  | SvcSentinel s => sentinel_eqb s target
  | SvcErrno _ => false
  | SvcWrap _ e' => svc_Is e' target
  end.

Fixpoint errors_Is (err : error) (target : sentinel) : bool :=
  match err with
  | FromSvc e => svc_Is e target
  | Errorf _ _ (Some w) => errors_Is w target
  | Errorf _ _ None => false
  end.

Fixpoint svc_error_eqb (x y : svc_error) : bool :=
  match x, y with
  | SvcSentinel s, SvcSentinel t => sentinel_eqb s t
  | SvcErrno a, SvcErrno b => N.eqb a b
  | SvcWrap o e, SvcWrap o' e' => String.eqb o o' && svc_error_eqb e e'
  | _, _ => false
  end.

(** [errors.Is(err, target)] for a service error value as target: is
    [target] somewhere on the chain of [err]? *)
Fixpoint svc_chain_has (e target : svc_error) : bool :=
  svc_error_eqb e target ||
  match e with SvcWrap _ e' => svc_chain_has e' target | _ => false end.

Fixpoint reports (err : error) (target : svc_error) : bool :=
  match err with
  | FromSvc e => svc_chain_has e target
  | Errorf _ _ (Some w) => reports w target
  | Errorf _ _ None => false
  end.

(** Is [err] an [fmt.Errorf] wrapper around another error whose arguments
    name the address [a]? *)
Definition wraps_with_addr (err : error) (a : Addr) : bool :=
  match err with
  | Errorf _ args (Some _) => existsb (Addr_eqb a) args
  | _ => false
  end.

(** ** Keys and values *)

Definition MaxGroups : nat := 1024.
Definition MaxSubscribers : nat := 1024.

Record GroupV4Key : Type := { Group : byte4 }.
Record GroupV4Val : Type := { FD : Z }.
Record SubscriberV4Key : Type := { SAddr : byte4 }.

Record SubscriberV4 : Type :=
  { sub_SAddr : Addr; sub_Ifindex : N; sub_IsRemote : bool }.

Definition SubscriberRemote : N := N.shiftl 1 0.

Record SubscriberV4Val : Type :=
  { SourceAddr : byte4; Ifindex : N; Pad1 : N; Pad2 : N; Flags : N }.

#[global] Instance GroupV4Key_zero : GoZero GroupV4Key := {| Group := zero |}.
#[global] Instance GroupV4Val_zero : GoZero GroupV4Val := {| FD := 0 |}.
#[global] Instance SubscriberV4Key_zero : GoZero SubscriberV4Key := {| SAddr := zero |}.
#[global] Instance SubscriberV4Val_zero : GoZero SubscriberV4Val :=
  {| SourceAddr := zero; Ifindex := 0; Pad1 := 0; Pad2 := 0; Flags := 0 |}.

(** A Go panic is [None]. *)
Definition NewGroupV4KeyFromNetIPAddr (ip : Addr) : option (GroupV4Key * option error) :=
  if negb (Is4 ip) || negb (IsMulticast ip)
  then Some (zero, Some (Errorf "ip must be an IPv4 multicast address" [] None))
  else match As4 ip with
       | Some a => Some ({| Group := a |}, None)
       | None => None
       end.

Definition GroupV4Key_ToNetIPAddr (k : GroupV4Key) : Addr * bool :=
  AddrFromSlice (slice4 (Group k)).

Definition NewSubscriberV4KeyFromNetIPAddr (ip : Addr) : option (SubscriberV4Key * option error) :=
  if negb (Is4 ip)
  then Some (zero, Some (Errorf "ip must be IPv4" [] None))
  else match As4 ip with
       | Some a => Some ({| SAddr := a |}, None)
       | None => None
       end.

Definition SubscriberV4Key_ToNetIPAddr (k : SubscriberV4Key) : Addr * bool :=
  AddrFromSlice (slice4 (SAddr k)).

(** A Go function whose every return is [nil, err] or [x, nil] returns a
    sum: [inl err] or [inr x]. *)
Definition ToSubsciberV4 (v : SubscriberV4Val) : error + SubscriberV4 :=
  let '(saddr, ok) := SubscriberV4Key_ToNetIPAddr {| SAddr := SourceAddr v |} in
  if negb ok
  then inl (Errorf "failed to convert SubscriberV4Val.SAddr to netip.Addr" [] None)
  else
    let sub := {| sub_SAddr := saddr; sub_Ifindex := Ifindex v; sub_IsRemote := false |} in
    let sub :=
      if negb (N.eqb (Flags v) 0)
      then {| sub_SAddr := sub_SAddr sub; sub_Ifindex := sub_Ifindex sub; sub_IsRemote := true |}
      else sub in
    inr sub.

(** ** The table service

    [pkg/ebpf]'s [Map] and the kernel tables behind it are outside the file.
    Every call the file makes on a map is answered by the next response of a
    script, and logged.  A script that has run out, or whose next response
    is not one the call can produce, leaves the run [Starved]; a Go panic is
    [Panics]. *)

Inductive UpdateFlags : Type := UpdateAny | UpdateNoExist | UpdateExist.

(** [*ebpf.Map]: the name of its spec and, once opened, its descriptor. *)
Record ebpf_Map : Type := { Name : string; fd : option Z }.

Definition NewMap (name : string) : ebpf_Map := {| Name := name; fd := None |}.

Inductive Call (V : Type) : Type :=
| CallOpenOrCreate (name : string)
| CallLoadRegisterMap (name : string)
| CallUpdate (m : ebpf_Map) (key : byte4) (val : V) (flags : UpdateFlags)
| CallLookup (m : ebpf_Map) (key : byte4)
| CallDelete (m : ebpf_Map) (key : byte4)
| CallClose (m : ebpf_Map)
| CallBatchLookup (m : ebpf_Map) (nkeys nvals : nat)
| CallNext (m : ebpf_Map).

Arguments CallOpenOrCreate {V} name.
Arguments CallLoadRegisterMap {V} name.
Arguments CallLookup {V} m key.
Arguments CallDelete {V} m key.
Arguments CallClose {V} m.
Arguments CallBatchLookup {V} m nkeys nvals.
Arguments CallNext {V} m.

(** One step of a sequential iteration: an entry, the end of the table, or a
    failure. *)
Inductive IterStep (K V : Type) : Type :=
| NextEntry (k : K) (v : V)
| NextDone
| NextFail (e : svc_error).

Arguments NextDone {K V}.
Arguments NextFail {K V} e.

Inductive Resp (K V : Type) : Type :=
| RespErr (e : option svc_error)
| RespOpen (r : svc_error + Z)
| RespLookup (r : svc_error + V)
| RespBatch (entries : list (K * V)) (e : option svc_error)
| RespNext (s : IterStep K V).

Arguments RespErr {K V} e.
Arguments RespOpen {K V} r.
Arguments RespLookup {K V} r.

Record World (K V : Type) : Type :=
  { script : list (Resp K V); trace : list (Call V) }.

Inductive Outcome (W A : Type) : Type :=
| Returns (a : A) (w : W)
| Panics
| Starved.

Arguments Panics {W A}.
Arguments Starved {W A}.

Definition M (K V A : Type) : Type := World K V -> Outcome (World K V) A.

Definition ret {K V A} (a : A) : M K V A := fun w => Returns a w.

Definition bind {K V A B} (c : M K V A) (k : A -> M K V B) : M K V B :=
  fun w => match c w with
           | Returns a w' => k a w'
           | Panics => Panics
           | Starved => Starved
           end.

Definition panic {K V A} : M K V A := fun _ => Panics.
Definition starve {K V A} : M K V A := fun _ => Starved.

Declare Scope svc_scope.
Delimit Scope svc_scope with svc.
Notation "x <- c1 ;; c2" := (bind c1 (fun x => c2))
  (at level 61, c1 at next level, right associativity) : svc_scope.
Notation "' pat <- c1 ;; c2" := (bind c1 (fun x => match x with pat => c2 end))
  (at level 61, pat pattern, c1 at next level, right associativity) : svc_scope.
Local Open Scope svc_scope.

(** A pure computation that may panic. *)
Definition or_panic {K V A} (o : option A) : M K V A :=
  match o with Some a => ret a | None => panic end.

(** A Go [for] loop whose every iteration makes a service call runs at most
    once more than the script has responses. *)
Definition with_fuel {K V A} (loop : nat -> M K V A) : M K V A :=
  fun w => loop (S (List.length (script w))) w.

(** The results of a run, when it returns. *)
Definition result {W A} (o : Outcome W A) : option A :=
  match o with Returns a _ => Some a | _ => None end.

(** [copy(buf, new)]: the prefix of [buf] overwritten, its length kept. *)
Definition overwrite {A} (new buf : list A) : list A :=
  firstn (List.length buf) (new ++ skipn (List.length new) buf).

Section Service.
Context {K V : Type}.

Definition call (c : Call V) : M K V (Resp K V) :=
  fun w => match script w with
           | [] => Starved
           | r :: rest => Returns r {| script := rest; trace := trace w ++ [c] |}
           end.

(** Modelled from the spec: "create-or-open a named, typed table", the
    [m.OpenOrCreate()] of the table service; the response is the descriptor
    of the opened table or the failure. *)
Definition OpenOrCreate (m : ebpf_Map) : M K V (ebpf_Map * option svc_error) :=
  r <- call (CallOpenOrCreate (Name m)) ;;
  match r with
  | RespOpen (inr d) => ret ({| Name := Name m; fd := Some d |}, None)
  | RespOpen (inl e) => ret (m, Some e)
  | _ => starve
  end.

(** Modelled from the spec: opening an existing table by its registered
    name, [ebpf.LoadRegisterMap(logger, name)]. *)
Definition LoadRegisterMap (name : string) : M K V (svc_error + ebpf_Map) :=
  r <- call (CallLoadRegisterMap name) ;;
  match r with
  | RespOpen (inr d) => ret (inr {| Name := name; fd := Some d |})
  | RespOpen (inl e) => ret (inl e)
  | _ => starve
  end.

(** [m.FD()]: a map that was never opened has no descriptor to give. *)
Definition FD_of (m : ebpf_Map) : M K V Z := or_panic (fd m).

(** Modelled from the spec: the atomic "insert-if-absent(key, value)",
    [m.Update(key, val, flags)]; the response is its error, if any. *)
Definition Update (m : ebpf_Map) (key : byte4) (val : V) (flags : UpdateFlags)
  : M K V (option svc_error) :=
  r <- call (CallUpdate m key val flags) ;;
  match r with RespErr e => ret e | _ => starve end.

(** Modelled from the spec: "lookup(key) -> value", [m.Lookup(key, &val)];
    [val] is written on success only. *)
Definition Lookup (m : ebpf_Map) (key : byte4) (val : V) : M K V (V * option svc_error) :=
  r <- call (CallLookup m key) ;;
  match r with
  | RespLookup (inr v) => ret (v, None)
  | RespLookup (inl e) => ret (val, Some e)
  | _ => starve
  end.

(** Modelled from the spec: "delete(key)", [m.Delete(key)]; the response is
    its error, if any. *)
Definition Delete (m : ebpf_Map) (key : byte4) : M K V (option svc_error) :=
  r <- call (CallDelete m key) ;;
  match r with RespErr e => ret e | _ => starve end.

(** Modelled from the spec: "explicit release of a table resource handle",
    [m.Close()]; the response is its error, if any. *)
Definition Close (m : ebpf_Map) : M K V (option svc_error) :=
  r <- call (CallClose m) ;;
  match r with RespErr e => ret e | _ => starve end.

(** Modelled from the spec: "bulk fetch taking an opaque cursor and
    fixed-size output buffers, returning an entry count and either a
    continuation or an exhaustion signal",
    [m.BatchLookup(&cursor, keysOut, valuesOut, nil)].  The entries the
    service delivers are written at the start of both buffers, never more
    of them than the buffers hold; the count is returned with the error
    ([nil] for a continuation, [ErrKeyNotExist] for exhaustion).  The cursor
    is the position in the script. *)
Definition BatchLookup (m : ebpf_Map) (keysOut : list K) (valuesOut : list V)
  : M K V (nat * list K * list V * option svc_error) :=
  r <- call (CallBatchLookup m (List.length keysOut) (List.length valuesOut)) ;;
  match r with
  | RespBatch entries e =>
      let n := Nat.min (List.length entries)
                       (Nat.min (List.length keysOut) (List.length valuesOut)) in
      let got := firstn n entries in
      ret (n, overwrite (map fst got) keysOut, overwrite (map snd got) valuesOut, e)
  | _ => starve
  end.

(** [*ebpf.MapIterator] *)
Record MapIterator : Type := { iter_map : ebpf_Map; iter_err : option svc_error }.

Definition Iterate (m : ebpf_Map) : MapIterator := {| iter_map := m; iter_err := None |}.

(** Modelled from the spec: "sequential iteration yielding one entry per
    call plus an exhaustion/error signal", [iter.Next(&key, &val)]: [Some]
    is [true] with the entry written, [None] is [false]; a failure is kept
    for [iter.Err()]. *)
Definition Next (iter : MapIterator) : M K V (option (K * V) * MapIterator) :=
  r <- call (CallNext (iter_map iter)) ;;
  match r with
  | RespNext (NextEntry k v) => ret (Some (k, v), iter)
  | RespNext NextDone => ret (None, iter)
  | RespNext (NextFail e) => ret (None, {| iter_map := iter_map iter; iter_err := Some e |})
  | _ => starve
  end.

Definition Err (iter : MapIterator) : option svc_error := iter_err iter.

(** The cursor loop of [ListBatch] and of [SubscriberV4InnerMap.List]:
    [Some e] is the [return nil, batchErr] exit, [None] the [break]. *)
Fixpoint batchLoop (fuel : nat) (m : ebpf_Map) (keys : list K) (vals : list V) (count : nat)
  : M K V (list K * list V * nat * option svc_error) :=
  match fuel with
  | O => starve
  | S fuel' =>
      ' (c, keys, vals, batchErr) <- BatchLookup m keys vals ;;
      let count := count + c in
      match batchErr with
      | Some e =>
          if svc_Is e ErrKeyNotExist then ret (keys, vals, count, None)
          else ret (keys, vals, count, Some e)
      | None => batchLoop fuel' m keys vals count
      end
  end.

(** [haveBatchLookupSupport[K, V]] *)
Definition haveBatchLookupSupport `{GoZero K} `{GoZero V} (m : ebpf_Map) : M K V bool :=
  let keys := repeat (zero : K) 1 in
  let vals := repeat (zero : V) 1 in
  ' (_, _, _, err) <- BatchLookup m keys vals ;;
  match err with
  | Some e => if svc_Is e ErrNotSupported then ret false else ret true
  | None => ret true
  end.

End Service.

(** ** The outer map: multicast groups *)

Record GroupV4OuterMap : Type := { Map : ebpf_Map; batchLookupSupported : bool }.

Record SubscriberV4InnerMap : Type := { sub_Map : ebpf_Map }.

Definition GroupOuter4MapName : string := "cilium_mcast_group_outer_v4_map".

(** Runs against the outer map, and against an inner one. *)
Definition GM : Type -> Type := M GroupV4Key GroupV4Val.
Definition SM : Type -> Type := M SubscriberV4Key SubscriberV4Val.


(** The [OnStart] hook that [NewGroupV4Map] registers; [groupMap] is shared
    with the hook, so the map it leaves is returned with the error. *)
Definition OnStart (groupMap : GroupV4OuterMap) : GM (GroupV4OuterMap * option error) :=
  ' (m, err) <- OpenOrCreate (Map groupMap) ;;
  let groupMap := {| Map := m; batchLookupSupported := batchLookupSupported groupMap |} in
  match err with
  | Some e => ret (groupMap, Some (FromSvc e))
  | None =>
      b <- haveBatchLookupSupport (Map groupMap) ;;
      ret ({| Map := Map groupMap; batchLookupSupported := b |}, None)
  end.

Definition OpenGroupV4OuterMap (name : string) : GM (error + GroupV4OuterMap) :=
  r <- LoadRegisterMap name ;;
  match r with
  | inl e => ret (inl (FromSvc e))
  | inr m =>
      b <- haveBatchLookupSupport m ;;
      ret (inr {| Map := m; batchLookupSupported := b |})
  end.

Definition newSubscriberV4InnerMap {K V} : M K V (error + SubscriberV4InnerMap) :=
  let m := NewMap "cilium_mcast_subscriber_v4_inner" in
  ' (m, err) <- OpenOrCreate m ;;
  match err with
  | Some e => ret (inl (FromSvc e))
  | None => ret (inr {| sub_Map := m |})
  end.

Definition GroupV4OuterMap_Insert (m : GroupV4OuterMap) (group : Addr) : GM (option error) :=
  ' (key, err) <- or_panic (NewGroupV4KeyFromNetIPAddr group) ;;
  match err with
  | Some e => ret (Some e)
  | None =>
      r <- newSubscriberV4InnerMap ;;
      match r with
      | inl e => ret (Some (Errorf "failed to create SubscriberV4InnerMap: %w" [] (Some e)))
      | inr subMap =>
          d <- FD_of (sub_Map subMap) ;;
          let val := {| FD := uint32 d |} in
          err <- Update (Map m) (Group key) val UpdateNoExist ;;
          match err with
          | Some e =>
              _ <- Close (sub_Map subMap) ;;
              ret (Some (Errorf "failed to create new multicast group entry: %w" []
                                (Some (FromSvc e))))
          | None => ret None
          end
      end
  end.

Definition GroupV4OuterMap_Delete (m : GroupV4OuterMap) (group : Addr) : GM (option error) :=
  ' (key, err) <- or_panic (NewGroupV4KeyFromNetIPAddr group) ;;
  match err with
  | Some e => ret (Some e)
  | None =>
      err <- Delete (Map m) (Group key) ;;
      ret (option_map FromSvc err)
  end.

(** The body of the [for iter.Next(&key, &val)] loop of [ListIterator] and
    the [return out, iter.Err()] after it. *)
Fixpoint iterLoop (fuel : nat) (iter : MapIterator) (out : list Addr)
  : GM (list Addr * option error) :=
  match fuel with
  | O => starve
  | S fuel' =>
      ' (entry, iter) <- Next iter ;;
      match entry with
      | Some (key, _) =>
          let '(ip, ok) := GroupV4Key_ToNetIPAddr key in
          if negb ok
          then ret (out, Some (Errorf "failed to convert key to netip.Addr" [] None))
          else iterLoop fuel' iter (out ++ [ip])
      | None => ret (out, option_map FromSvc (Err iter))
      end
  end.

Definition GroupV4OuterMap_ListIterator (m : GroupV4OuterMap) : GM (list Addr * option error) :=
  let out : list Addr := [] in
  let iter := Iterate (Map m) in
  with_fuel (fun fuel => iterLoop fuel iter out).

(** The loop [for i := 0; i < len(keys) && i < count; i++] of [ListBatch]
    visits [firstn count keys]; a Go nil slice is [[]]. *)
Fixpoint groupsOf (keys : list GroupV4Key) (out : list Addr) : list Addr * option error :=
  match keys with
  | [] => (out, None)
  | k :: keys' =>
      let '(group, ok) := GroupV4Key_ToNetIPAddr k in
      if negb ok
      then ([], Some (Errorf "failed to convert GroupV4Key.Group to netip.Addr" [] None))
      else groupsOf keys' (out ++ [group])
  end.

Definition GroupV4OuterMap_ListBatch (m : GroupV4OuterMap) : GM (list Addr * option error) :=
  let keys := repeat (zero : GroupV4Key) MaxGroups in
  let vals := repeat (zero : GroupV4Val) MaxGroups in
  let out : list Addr := [] in
  ' (keys, vals, count, batchErr) <-
      with_fuel (fun fuel => batchLoop fuel (Map m) keys vals 0) ;;
  match batchErr with
  | Some e => ret ([], Some (FromSvc e))
  | None => ret (groupsOf (firstn count keys) out)
  end.

Definition GroupV4OuterMap_List (m : GroupV4OuterMap) : GM (list Addr * option error) :=
  if batchLookupSupported m then GroupV4OuterMap_ListBatch m
  else GroupV4OuterMap_ListIterator m.

(** ** The inner map: subscribers of one group *)

Definition SubscriberV4InnerMap_Insert (m : SubscriberV4InnerMap) (s : SubscriberV4)
  : SM (option error) :=
  ' (key, err) <- or_panic (NewSubscriberV4KeyFromNetIPAddr (sub_SAddr s)) ;;
  match err with
  | Some e => ret (Some e)
  | None =>
      let flags : N := 0%N in
      let flags := if sub_IsRemote s then N.lor flags SubscriberRemote else flags in
      let val := {| SourceAddr := SAddr key; Ifindex := sub_Ifindex s;
                    Pad1 := 0; Pad2 := 0; Flags := uint8 flags |} in
      err <- Update (sub_Map m) (SAddr key) val UpdateNoExist ;;
      match err with
      | Some e => ret (Some (Errorf "failed to insert multicast subscriber: %w" []
                                    (Some (FromSvc e))))
      | None => ret None
      end
  end.

Definition SubscriberV4InnerMap_Lookup (m : SubscriberV4InnerMap) (Src : Addr)
  : SM (error + SubscriberV4) :=
  let val : SubscriberV4Val := zero in
  ' (key, err) <- or_panic (NewSubscriberV4KeyFromNetIPAddr Src) ;;
  match err with
  | Some e => ret (inl e)
  | None =>
      ' (val, err) <- Lookup (sub_Map m) (SAddr key) val ;;
      match err with
      | Some e =>
          if svc_Is e ErrKeyNotExist
          then ret (inl (Errorf "no subscriber with source address %s: %w" [Src]
                                (Some (FromSvc e))))
          else ret (inl (Errorf "failed to lookup subscriber %s: %w" [Src]
                                (Some (FromSvc e))))
      | None =>
          match ToSubsciberV4 val with
          | inl e => ret (inl e)
          | inr sub => ret (inr sub)
          end
      end
  end.

Definition SubscriberV4InnerMap_Delete (m : SubscriberV4InnerMap) (Src : Addr) : SM (option error) :=
  ' (key, err) <- or_panic (NewSubscriberV4KeyFromNetIPAddr Src) ;;
  match err with
  | Some e => ret (Some e)
  | None =>
      err <- Delete (sub_Map m) (SAddr key) ;;
      ret (option_map FromSvc err)
  end.

(** The loop [for i := 0; i < len(vals) && i < count; i++] of [List]. *)
Fixpoint subscribersOf (vals : list SubscriberV4Val) (out : list SubscriberV4)
  : list SubscriberV4 * option error :=
  match vals with
  | [] => (out, None)
  | v :: vals' =>
      match ToSubsciberV4 v with
      | inl e => ([], Some e)
      | inr sub => subscribersOf vals' (out ++ [sub])
      end
  end.

Definition SubscriberV4InnerMap_List (m : SubscriberV4InnerMap)
  : SM (list SubscriberV4 * option error) :=
  let keys := repeat (zero : SubscriberV4Key) MaxSubscribers in
  let vals := repeat (zero : SubscriberV4Val) MaxSubscribers in
  let out : list SubscriberV4 := [] in
  ' (keys, vals, count, batchErr) <-
      with_fuel (fun fuel => batchLoop fuel (sub_Map m) keys vals 0) ;;
  match batchErr with
  | Some e => ret ([], Some (FromSvc e))
  | None => ret (subscribersOf (firstn count vals) out)
  end.

(** ** Concrete data for the examples *)

Definition IPv4 (x0 x1 x2 x3 : byte) : Addr := AddrV4 (Byte4 x0 x1 x2 x3).

(** 224.0.0.[d] as a group key with its table handle. *)
Definition gkey (d : byte) : GroupV4Key := {| Group := Byte4 xe0 x00 x00 d |}.
Definition gentry (d : byte) : GroupV4Key * GroupV4Val :=
  (gkey d, {| FD := Z.of_N (Byte.to_N d) |}).

(** 192.168.1.[d] as a subscriber entry on interface 7. *)
Definition sentry (d : byte) (flags : N) : SubscriberV4Key * SubscriberV4Val :=
  ({| SAddr := Byte4 xc0 xa8 x01 d |},
   {| SourceAddr := Byte4 xc0 xa8 x01 d; Ifindex := 7; Pad1 := 0; Pad2 := 0; Flags := flags |}).

Definition outer (batch : bool) : GroupV4OuterMap :=
  {| Map := {| Name := GroupOuter4MapName; fd := Some 3%Z |}; batchLookupSupported := batch |}.

Definition inner : SubscriberV4InnerMap :=
  {| sub_Map := {| Name := "cilium_mcast_subscriber_v4_inner"; fd := Some 4%Z |} |}.

Definition world {K V} (s : list (Resp K V)) : World K V := {| script := s; trace := [] |}.

(** ** Scripts of an enumeration *)

(** A bulk fetch that succeeds and leaves more to fetch. *)
Definition fetch_more {K V} (entries : list (K * V)) : Resp K V := RespBatch entries None.

(** The bulk fetches of a whole enumeration: every chunk but the last comes
    with a continuation, the last one with "no more entries". *)
Definition batch_script {K V} (chunks : list (list (K * V))) (last : list (K * V))
  : list (Resp K V) :=
  map fetch_more chunks ++ [RespBatch last (Some (SvcSentinel ErrKeyNotExist))].

(** The sequential iteration over the same entries. *)
Definition iter_script {K V} (entries : list (K * V)) : list (Resp K V) :=
  map (fun e => RespNext (NextEntry (fst e) (snd e))) entries.

Definition group_addr (e : GroupV4Key * GroupV4Val) : Addr := AddrV4 (Group (fst e)).

(** The buffers and the count of the cursor loop after the bulk fetches
    that deliver [chunks], one after the other: what [BatchLookup] writes
    and [count += c] adds. *)
Fixpoint after_fetches {K V} (keys : list K) (vals : list V) (count : nat)
  (chunks : list (list (K * V))) : list K * list V * nat :=
  match chunks with
  | [] => (keys, vals, count)
  | entries :: chunks' =>
      let n := Nat.min (List.length entries)
                       (Nat.min (List.length keys) (List.length vals)) in
      let got := firstn n entries in
      after_fetches (overwrite (map fst got) keys) (overwrite (map snd got) vals)
                    (count + n) chunks'
  end.

(** How a sequential iteration ends: exhausted, or failed. *)
Definition iter_end {K V} (e : option svc_error) : Resp K V :=
  RespNext (match e with Some e => NextFail e | None => NextDone end).

Definition subscriber_of (v : SubscriberV4Val) : SubscriberV4 :=
  {| sub_SAddr := AddrV4 (SourceAddr v); sub_Ifindex := Ifindex v;
     sub_IsRemote := negb (N.eqb (Flags v) 0) |}.

(** The answer of the capability probe to the outcome of its one bulk
    fetch. *)
Definition probe_answer (e : option svc_error) : bool :=
  match e with
  | Some e => negb (svc_Is e ErrNotSupported)
  | None => true
  end.

(** ** Lookup in the outer map, and the stop hook *)

(** [ebpf.MapFromID(logger, id)] is a call of the table service of its own
    ("open an existing table resource from its opaque handle id"); what it
    answers for an id is the parameter [MapFromID].  [int(val.FD)] keeps the
    value of the [uint32]. *)
Definition GroupV4OuterMap_Lookup (MapFromID : Z -> svc_error + ebpf_Map)
  (m : GroupV4OuterMap) (group : Addr) : GM (error + SubscriberV4InnerMap) :=
  let val : GroupV4Val := zero in
  ' (key, err) <- or_panic (NewGroupV4KeyFromNetIPAddr group) ;;
  match err with
  | Some e => ret (inl e)
  | None =>
      ' (val, err) <- Lookup (Map m) (Group key) val ;;
      match err with
      | Some e =>
          if svc_Is e ErrKeyNotExist
          then ret (inl (Errorf "multicast group %s does not exist: %w" [group]
                                (Some (FromSvc e))))
          else ret (inl (Errorf "failed to query for multicast group: %w" []
                                (Some (FromSvc e))))
      | None =>
          match MapFromID (FD val) with
          | inl e =>
              ret (inl (Errorf "failed to convert SubscriberV4InnerMap FD to *ebpf.Map: %w" []
                               (Some (FromSvc e))))
          | inr subMap => ret (inr {| sub_Map := subMap |})
          end
      end
  end.

(** The [OnStop] hook that [NewGroupV4Map] registers. *)
Definition OnStop (groupMap : GroupV4OuterMap) : GM (option error) :=
  err <- Close (Map groupMap) ;;
  ret (option_map FromSvc err).

(** The exits of [GroupV4OuterMap.Insert]: the result and the world it
    leaves, for the world it starts in. *)
Inductive InsertExit (m : GroupV4OuterMap) (group : Addr) (w : World GroupV4Key GroupV4Val)
  : option error -> World GroupV4Key GroupV4Val -> Prop :=
| ExitRefused (k : GroupV4Key) (e : error) :
    NewGroupV4KeyFromNetIPAddr group = Some (k, Some e) ->
    InsertExit m group w (Some e) w
| ExitNotCreated (k : GroupV4Key) (e : svc_error) (rest : list (Resp GroupV4Key GroupV4Val)) :
    NewGroupV4KeyFromNetIPAddr group = Some (k, None) ->
    script w = RespOpen (inl e) :: rest ->
    InsertExit m group w
      (Some (Errorf "failed to create SubscriberV4InnerMap: %w" [] (Some (FromSvc e))))
      {| script := rest;
         trace := trace w ++ [CallOpenOrCreate "cilium_mcast_subscriber_v4_inner"] |}
| ExitRegistered (k : GroupV4Key) (d : Z) (rest : list (Resp GroupV4Key GroupV4Val)) :
    NewGroupV4KeyFromNetIPAddr group = Some (k, None) ->
    script w = RespOpen (inr d) :: RespErr None :: rest ->
    InsertExit m group w None
      {| script := rest;
         trace := trace w ++ [CallOpenOrCreate "cilium_mcast_subscriber_v4_inner";
                              CallUpdate (Map m) (Group k) {| FD := uint32 d |}
                                         UpdateNoExist] |}
| ExitRolledBack (k : GroupV4Key) (d : Z) (e : svc_error) (closed : option svc_error)
    (rest : list (Resp GroupV4Key GroupV4Val)) :
    NewGroupV4KeyFromNetIPAddr group = Some (k, None) ->
    script w = RespOpen (inr d) :: RespErr (Some e) :: RespErr closed :: rest ->
    InsertExit m group w
      (Some (Errorf "failed to create new multicast group entry: %w" [] (Some (FromSvc e))))
      {| script := rest;
         trace := trace w ++ [CallOpenOrCreate "cilium_mcast_subscriber_v4_inner";
                              CallUpdate (Map m) (Group k) {| FD := uint32 d |} UpdateNoExist;
                              CallClose {| Name := "cilium_mcast_subscriber_v4_inner";
                                           fd := Some d |}] |}.

(** The sum of the counts that the bulk fetches of [chunks] return into
    buffers of [cap] slots. *)
Definition fetched_count {K V} (cap : nat) (chunks : list (list (K * V))) : nat :=
  fold_right (fun entries acc => Nat.min (List.length entries) cap + acc) 0 chunks.

(** ** The address codec *)

Unset Implicit Arguments.

Lemma GroupV4Key_ToNetIPAddr_eq (k : GroupV4Key) :
  GroupV4Key_ToNetIPAddr k = (AddrV4 (Group k), true).
Proof. destruct k as [[x0 x1 x2 x3]]. reflexivity. Qed.

Lemma SubscriberV4Key_ToNetIPAddr_eq (k : SubscriberV4Key) :
  SubscriberV4Key_ToNetIPAddr k = (AddrV4 (SAddr k), true).
Proof. destruct k as [[x0 x1 x2 x3]]. reflexivity. Qed.

Lemma Is4_inv (a : Addr) : Is4 a = true -> exists x, a = AddrV4 x.
Proof. destruct a; simpl; try discriminate. intros _. eexists; reflexivity. Qed.

(** The [As4] call of the two key constructors is guarded: they never
    panic. *)
Lemma NewGroupV4KeyFromNetIPAddr_total (a : Addr) :
  NewGroupV4KeyFromNetIPAddr a <> None.
Proof.
  unfold NewGroupV4KeyFromNetIPAddr.
  destruct a; simpl; try discriminate.
  destruct (negb _); discriminate.
Qed.

Lemma NewSubscriberV4KeyFromNetIPAddr_total (a : Addr) :
  NewSubscriberV4KeyFromNetIPAddr a <> None.
Proof. destruct a; discriminate. Qed.

(** C7: for every IPv4 multicast address, encoding it as a group key
    succeeds and decoding that key gives the address back. *)
Theorem C7_group_key_roundtrip (a : Addr) :
  Is4 a = true -> IsMulticast a = true ->
  exists k, NewGroupV4KeyFromNetIPAddr a = Some (k, None)
            /\ GroupV4Key_ToNetIPAddr k = (a, true).
Proof.
  intros H4 Hm. destruct (Is4_inv _ H4) as [x ->].
  exists {| Group := x |}. split.
  - unfold NewGroupV4KeyFromNetIPAddr. rewrite Hm. reflexivity.
  - apply GroupV4Key_ToNetIPAddr_eq.
Qed.

Lemma C7_group_key_roundtrip_witness :
  exists k, NewGroupV4KeyFromNetIPAddr (IPv4 xe0 x00 x00 x05) = Some (k, None)
            /\ GroupV4Key_ToNetIPAddr k = (IPv4 xe0 x00 x00 x05, true).
Proof. apply (C7_group_key_roundtrip (IPv4 xe0 x00 x00 x05)); reflexivity. Defined.

(** C8: the group key constructor rejects every address that is not IPv4 or
    not multicast; the subscriber key constructor rejects an address exactly
    when it is not IPv4, and accepts every IPv4 address, multicast or
    not. *)
Theorem C8_invalid_address (a : Addr) :
  (Is4 a = false \/ IsMulticast a = false ->
   NewGroupV4KeyFromNetIPAddr a
   = Some (zero, Some (Errorf "ip must be an IPv4 multicast address" [] None)))
  /\ (Is4 a = false <->
      NewSubscriberV4KeyFromNetIPAddr a = Some (zero, Some (Errorf "ip must be IPv4" [] None)))
  /\ (Is4 a = true <->
      exists k, NewSubscriberV4KeyFromNetIPAddr a = Some (k, None)).
Proof.
  split; [| split].
  - intros [H | H]; unfold NewGroupV4KeyFromNetIPAddr; rewrite H; simpl.
    + reflexivity.
    + rewrite orb_true_r. reflexivity.
  - unfold NewSubscriberV4KeyFromNetIPAddr. split.
    + intros ->. reflexivity.
    + destruct a; simpl; try reflexivity. discriminate.
  - unfold NewSubscriberV4KeyFromNetIPAddr. split.
    + intros H. destruct (Is4_inv _ H) as [x ->]. eexists. reflexivity.
    + destruct a; simpl; intros [k Hk]; try discriminate. reflexivity.
Qed.

Lemma C8_invalid_address_witness :
  NewGroupV4KeyFromNetIPAddr (IPv4 x0a x00 x00 x01)
  = Some (zero, Some (Errorf "ip must be an IPv4 multicast address" [] None))
  /\ exists k, NewSubscriberV4KeyFromNetIPAddr (IPv4 x0a x00 x00 x01) = Some (k, None).
Proof.
  split.
  - apply (proj1 (C8_invalid_address (IPv4 x0a x00 x00 x01))). right. reflexivity.
  - apply (proj2 (proj2 (C8_invalid_address (IPv4 x0a x00 x00 x01)))). reflexivity.
Defined.

(** ** The subscriber value decoder *)

Lemma ToSubsciberV4_eq (v : SubscriberV4Val) :
  ToSubsciberV4 v
  = inr {| sub_SAddr := AddrV4 (SourceAddr v); sub_Ifindex := Ifindex v;
           sub_IsRemote := negb (N.eqb (Flags v) 0) |}.
Proof.
  unfold ToSubsciberV4. rewrite SubscriberV4Key_ToNetIPAddr_eq. simpl.
  destruct (N.eqb (Flags v) 0); reflexivity.
Qed.

(** C4, as stated, fails: a stored value whose flags byte is 2 (bit 0
    clear, bit 1 set) decodes to a remote subscriber. *)
Lemma C4_counterexample :
  N.testbit (Flags (snd (sentry x0a 2))) 0 = false
  /\ ToSubsciberV4 (snd (sentry x0a 2))
     = inr {| sub_SAddr := IPv4 xc0 xa8 x01 x0a; sub_Ifindex := 7; sub_IsRemote := true |}
  /\ ~ (forall v s, ToSubsciberV4 v = inr s -> sub_IsRemote s = N.testbit (Flags v) 0).
Proof.
  split; [reflexivity | split; [reflexivity |]].
  intros H. specialize (H (snd (sentry x0a 2)) _ eq_refl). discriminate H.
Qed.

(** C4, amended: decoding never fails, and the record is marked remote
    exactly when the flags byte is not zero, whichever bits are set; for a
    flags byte with no bit above bit 0 that is bit 0.  A successful lookup
    returns the decoded record. *)
Theorem C4_remote_iff_flags_nonzero (v : SubscriberV4Val) :
  ToSubsciberV4 v
  = inr {| sub_SAddr := AddrV4 (SourceAddr v); sub_Ifindex := Ifindex v;
           sub_IsRemote := negb (N.eqb (Flags v) 0) |}
  /\ (N.shiftr (Flags v) 1 = 0%N -> negb (N.eqb (Flags v) 0) = N.testbit (Flags v) 0)
  /\ (forall m Src key rest tr,
        NewSubscriberV4KeyFromNetIPAddr Src = Some (key, None) ->
        SubscriberV4InnerMap_Lookup m Src {| script := RespLookup (inr v) :: rest; trace := tr |}
        = Returns (inr {| sub_SAddr := AddrV4 (SourceAddr v); sub_Ifindex := Ifindex v;
                          sub_IsRemote := negb (N.eqb (Flags v) 0) |})
                  {| script := rest; trace := tr ++ [CallLookup (sub_Map m) (SAddr key)] |}).
Proof.
  split; [apply ToSubsciberV4_eq | split].
  - intros H. destruct (Flags v) as [| [p | p |]]; simpl in *; try discriminate; reflexivity.
  - intros m Src key rest tr Hk.
    unfold SubscriberV4InnerMap_Lookup, bind, or_panic. rewrite Hk.
    cbn -[ToSubsciberV4]. rewrite ToSubsciberV4_eq. reflexivity.
Qed.

Lemma C4_remote_iff_flags_nonzero_witness :
  negb (N.eqb (Flags (snd (sentry x0a 1))) 0) = N.testbit (Flags (snd (sentry x0a 1))) 0
  /\ SubscriberV4InnerMap_Lookup inner (IPv4 xc0 xa8 x01 x0a)
       (world [RespLookup (inr (snd (sentry x0a 2)))])
     = Returns (inr {| sub_SAddr := IPv4 xc0 xa8 x01 x0a; sub_Ifindex := 7;
                       sub_IsRemote := true |})
               {| script := [];
                  trace := [CallLookup (sub_Map inner) (Byte4 xc0 xa8 x01 x0a)] |}.
Proof.
  split.
  - apply (proj1 (proj2 (C4_remote_iff_flags_nonzero (snd (sentry x0a 1))))). reflexivity.
  - apply (proj2 (proj2 (C4_remote_iff_flags_nonzero (snd (sentry x0a 2))))
             inner (IPv4 xc0 xa8 x01 x0a) {| SAddr := Byte4 xc0 xa8 x01 x0a |} [] []).
    reflexivity.
Defined.

(** ** Insert into the outer map *)

(** C2, as stated, fails: the registration is refused (the group exists),
    the inner map is closed, the close fails with errno 9, and the error
    that [Insert] returns does not report that failure. *)
Lemma C2_counterexample :
  GroupV4OuterMap_Insert (outer true) (IPv4 xe0 x00 x00 x05)
    (world [RespOpen (inr 7%Z); RespErr (Some (SvcSentinel ErrKeyExist));
            RespErr (Some (SvcErrno 9))])
  = Returns (Some (Errorf "failed to create new multicast group entry: %w" []
                          (Some (FromSvc (SvcSentinel ErrKeyExist)))))
            {| script := [];
               trace := [CallOpenOrCreate "cilium_mcast_subscriber_v4_inner";
                         CallUpdate (Map (outer true)) (Byte4 xe0 x00 x00 x05) {| FD := 7 |}
                                    UpdateNoExist;
                         CallClose {| Name := "cilium_mcast_subscriber_v4_inner";
                                      fd := Some 7%Z |}] |}
  /\ reports (Errorf "failed to create new multicast group entry: %w" []
                     (Some (FromSvc (SvcSentinel ErrKeyExist)))) (SvcErrno 9) = false.
Proof. split; reflexivity. Qed.

(** C2, amended: when the inner map was allocated and its registration in
    the outer map fails, the inner map is closed after the failed update and
    before [Insert] returns, and [Insert] returns the registration error,
    wrapped; what the close returns is dropped. *)
Theorem C2_insert_releases_inner_map
  (m : GroupV4OuterMap) (group : Addr) (key : GroupV4Key) (d : Z)
  (e : svc_error) (closed : option svc_error)
  (rest : list (Resp GroupV4Key GroupV4Val)) (tr : list (Call GroupV4Val)) :
  NewGroupV4KeyFromNetIPAddr group = Some (key, None) ->
  GroupV4OuterMap_Insert m group
    {| script := RespOpen (inr d) :: RespErr (Some e) :: RespErr closed :: rest; trace := tr |}
  = Returns (Some (Errorf "failed to create new multicast group entry: %w" []
                          (Some (FromSvc e))))
            {| script := rest;
               trace := tr ++ [CallOpenOrCreate "cilium_mcast_subscriber_v4_inner";
                               CallUpdate (Map m) (Group key) {| FD := uint32 d |} UpdateNoExist;
                               CallClose {| Name := "cilium_mcast_subscriber_v4_inner";
                                            fd := Some d |}] |}.
Proof.
  intros Hk. unfold GroupV4OuterMap_Insert, bind, or_panic. rewrite Hk.
  cbn -[uint32]. rewrite <- !app_assoc. reflexivity.
Qed.

Lemma C2_insert_releases_inner_map_witness :
  GroupV4OuterMap_Insert (outer true) (IPv4 xe0 x00 x00 x05)
    {| script := [RespOpen (inr 7%Z); RespErr (Some (SvcSentinel ErrKeyExist)); RespErr None];
       trace := [] |}
  = Returns (Some (Errorf "failed to create new multicast group entry: %w" []
                          (Some (FromSvc (SvcSentinel ErrKeyExist)))))
            {| script := [];
               trace := [] ++
                        [CallOpenOrCreate "cilium_mcast_subscriber_v4_inner";
                         CallUpdate (Map (outer true)) (Group (gkey x05)) {| FD := uint32 7 |}
                                    UpdateNoExist;
                         CallClose {| Name := "cilium_mcast_subscriber_v4_inner";
                                      fd := Some 7%Z |}] |}.
Proof.
  apply (C2_insert_releases_inner_map (outer true) (IPv4 xe0 x00 x00 x05) (gkey x05) 7
           (SvcSentinel ErrKeyExist) None [] []).
  reflexivity.
Defined.

(** The other exits of [Insert]: an invalid address makes no service call,
    a failed allocation leaves nothing to release, a successful registration
    keeps the inner map open. *)
Lemma Insert_invalid_address (m : GroupV4OuterMap) (group : Addr) (key : GroupV4Key)
  (e : error) (w : World GroupV4Key GroupV4Val) :
  NewGroupV4KeyFromNetIPAddr group = Some (key, Some e) ->
  GroupV4OuterMap_Insert m group w = Returns (Some e) w.
Proof.
  intros Hk. unfold GroupV4OuterMap_Insert, bind, or_panic. rewrite Hk. reflexivity.
Qed.

Lemma Insert_registered (m : GroupV4OuterMap) (group : Addr) (key : GroupV4Key) (d : Z)
  (rest : list (Resp GroupV4Key GroupV4Val)) (tr : list (Call GroupV4Val)) :
  NewGroupV4KeyFromNetIPAddr group = Some (key, None) ->
  GroupV4OuterMap_Insert m group
    {| script := RespOpen (inr d) :: RespErr None :: rest; trace := tr |}
  = Returns None
            {| script := rest;
               trace := tr ++ [CallOpenOrCreate "cilium_mcast_subscriber_v4_inner";
                               CallUpdate (Map m) (Group key) {| FD := uint32 d |}
                                          UpdateNoExist] |}.
Proof.
  intros Hk. unfold GroupV4OuterMap_Insert, bind, or_panic. rewrite Hk.
  cbn -[uint32]. rewrite <- !app_assoc. reflexivity.
Qed.

(** ** Delete *)

(** C9, as stated, fails: a failure of the table service (errno 1) comes
    back from [Delete] as the service returned it, with no wrapper naming
    the operation or the address. *)
Lemma C9_counterexample :
  GroupV4OuterMap_Delete (outer true) (IPv4 xe0 x00 x00 x05) (world [RespErr (Some (SvcErrno 1))])
  = Returns (Some (FromSvc (SvcErrno 1)))
            {| script := [];
               trace := [CallDelete (Map (outer true)) (Byte4 xe0 x00 x00 x05)] |}
  /\ wraps_with_addr (FromSvc (SvcErrno 1)) (IPv4 xe0 x00 x00 x05) = false
  /\ SubscriberV4InnerMap_Delete inner (IPv4 xc0 xa8 x01 x0a) (world [RespErr (Some (SvcErrno 1))])
     = Returns (Some (FromSvc (SvcErrno 1)))
               {| script := [];
                  trace := [CallDelete (sub_Map inner) (Byte4 xc0 xa8 x01 x0a)] |}
  /\ wraps_with_addr (FromSvc (SvcErrno 1)) (IPv4 xc0 xa8 x01 x0a) = false.
Proof. repeat split. Qed.

(** C9, amended: for a valid address both [Delete]s make one delete call
    and return what the service returned, unchanged; so a missing key, which
    the service reports with [ErrKeyNotExist], is a not-found error for the
    caller's [errors.Is], and any other failure comes back unwrapped. *)
Theorem C9_delete_returns_service_error
  (gm : GroupV4OuterMap) (sm : SubscriberV4InnerMap) (group src : Addr)
  (gk : GroupV4Key) (sk : SubscriberV4Key) (r : option svc_error)
  (grest : list (Resp GroupV4Key GroupV4Val)) (gtr : list (Call GroupV4Val))
  (srest : list (Resp SubscriberV4Key SubscriberV4Val)) (str : list (Call SubscriberV4Val)) :
  NewGroupV4KeyFromNetIPAddr group = Some (gk, None) ->
  NewSubscriberV4KeyFromNetIPAddr src = Some (sk, None) ->
  GroupV4OuterMap_Delete gm group {| script := RespErr r :: grest; trace := gtr |}
  = Returns (option_map FromSvc r)
            {| script := grest; trace := gtr ++ [CallDelete (Map gm) (Group gk)] |}
  /\ SubscriberV4InnerMap_Delete sm src {| script := RespErr r :: srest; trace := str |}
     = Returns (option_map FromSvc r)
               {| script := srest; trace := str ++ [CallDelete (sub_Map sm) (SAddr sk)] |}
  /\ (forall e, r = Some e ->
        errors_Is (FromSvc e) ErrKeyNotExist = svc_Is e ErrKeyNotExist
        /\ forall a, wraps_with_addr (FromSvc e) a = false).
Proof.
  intros Hg Hs. split; [| split].
  - unfold GroupV4OuterMap_Delete, bind, or_panic. rewrite Hg. reflexivity.
  - unfold SubscriberV4InnerMap_Delete, bind, or_panic. rewrite Hs. reflexivity.
  - intros e _. split; [reflexivity | intros a; reflexivity].
Qed.

Lemma C9_delete_returns_service_error_witness :
  GroupV4OuterMap_Delete (outer true) (IPv4 xe0 x00 x00 x05)
    {| script := [RespErr (Some (SvcWrap "delete" (SvcSentinel ErrKeyNotExist)))]; trace := [] |}
  = Returns (Some (FromSvc (SvcWrap "delete" (SvcSentinel ErrKeyNotExist))))
            {| script := []; trace := [] ++ [CallDelete (Map (outer true)) (Group (gkey x05))] |}.
Proof.
  apply (C9_delete_returns_service_error (outer true) inner (IPv4 xe0 x00 x00 x05)
           (IPv4 xc0 xa8 x01 x0a) (gkey x05) {| SAddr := Byte4 xc0 xa8 x01 x0a |}
           (Some (SvcWrap "delete" (SvcSentinel ErrKeyNotExist))) [] [] [] []);
    reflexivity.
Defined.

(** ** Buffers *)

Lemma overwrite_length {A} (new buf : list A) :
  List.length (overwrite new buf) = List.length buf.
Proof.
  unfold overwrite. rewrite length_firstn, length_app, length_skipn. lia.
Qed.

Lemma overwrite_fits {A} (new buf : list A) :
  List.length new <= List.length buf ->
  overwrite new buf = new ++ skipn (List.length new) buf.
Proof.
  intros H. unfold overwrite. apply firstn_all2.
  rewrite length_app, length_skipn. lia.
Qed.

Lemma overwrite_nil {A} (buf : list A) : overwrite [] buf = buf.
Proof. unfold overwrite. simpl. apply firstn_all. Qed.

Lemma firstn_overwrite {A} (new buf : list A) :
  List.length new <= List.length buf ->
  firstn (List.length new) (overwrite new buf) = new.
Proof.
  intros H. rewrite overwrite_fits by assumption.
  rewrite firstn_app, Nat.sub_diag, firstn_all. simpl. apply app_nil_r.
Qed.

(** ** The cursor loop *)

Section Loops.
Context {K V : Type}.

Lemma BatchLookup_run (m : ebpf_Map) (keys : list K) (vals : list V)
  (entries : list (K * V)) (e : option svc_error) (rest : list (Resp K V))
  (tr : list (Call V)) :
  BatchLookup m keys vals {| script := RespBatch entries e :: rest; trace := tr |}
  = let n := Nat.min (List.length entries)
                     (Nat.min (List.length keys) (List.length vals)) in
    Returns (n, overwrite (map fst (firstn n entries)) keys,
             overwrite (map snd (firstn n entries)) vals, e)
            {| script := rest;
               trace := tr ++ [CallBatchLookup m (List.length keys) (List.length vals)] |}.
Proof. reflexivity. Qed.

Lemma BatchLookup_cases (m : ebpf_Map) (keys : list K) (vals : list V) (w : World K V) :
  BatchLookup m keys vals w
  = match script w with
    | RespBatch entries e :: rest =>
        let n := Nat.min (List.length entries)
                         (Nat.min (List.length keys) (List.length vals)) in
        Returns (n, overwrite (map fst (firstn n entries)) keys,
                 overwrite (map snd (firstn n entries)) vals, e)
                {| script := rest;
                   trace := trace w ++ [CallBatchLookup m (List.length keys)
                                                        (List.length vals)] |}
    | _ => Starved
    end.
Proof.
  unfold BatchLookup, bind, call. destruct (script w) as [| [] ?]; reflexivity.
Qed.

(** Fetches that succeed keep the loop going; the first one that comes
    with an error ends it, after one call per fetch. *)
Lemma batchLoop_run (pre : list (list (K * V))) :
  forall (fuel : nat) (m : ebpf_Map) (keys : list K) (vals : list V) (count : nat)
         (last : list (K * V)) (e : svc_error) (rest : list (Resp K V))
         (tr : list (Call V)),
    List.length pre < fuel ->
    batchLoop fuel m keys vals count
      {| script := map fetch_more pre ++ RespBatch last (Some e) :: rest; trace := tr |}
    = Returns (after_fetches keys vals count (pre ++ [last]),
               if svc_Is e ErrKeyNotExist then None else Some e)
              {| script := rest;
                 trace := tr ++ repeat (CallBatchLookup m (List.length keys) (List.length vals))
                                       (S (List.length pre)) |}.
Proof.
  induction pre as [| entries pre IH]; intros fuel m keys vals count last e rest tr Hfuel;
    (destruct fuel as [| fuel]; [simpl in Hfuel; lia |]).
  - cbn [batchLoop map app]. unfold bind. rewrite BatchLookup_run. cbv zeta.
    cbn [after_fetches List.length repeat].
    destruct (svc_Is e ErrKeyNotExist); reflexivity.
  - cbn [batchLoop map app]. unfold bind.
    change (fetch_more entries) with (@RespBatch K V entries None).
    rewrite BatchLookup_run. cbv zeta iota beta.
    rewrite IH by (simpl in Hfuel; lia).
    rewrite !overwrite_length. cbn [after_fetches app List.length].
    f_equal. f_equal. rewrite <- app_assoc. reflexivity.
Qed.

(** Whatever the script, the calls of the loop are bulk fetches into the
    same two buffers. *)
Lemma batchLoop_calls (fuel : nat) :
  forall (m : ebpf_Map) (keys : list K) (vals : list V) (count : nat)
         (w : World K V) r w',
    batchLoop fuel m keys vals count w = Returns r w' ->
    exists n, trace w' = trace w ++ repeat (CallBatchLookup m (List.length keys)
                                                            (List.length vals)) n.
Proof.
  induction fuel as [| fuel IH]; intros m keys vals count w r w' H.
  - discriminate H.
  - cbn [batchLoop] in H. unfold bind at 1 in H. rewrite BatchLookup_cases in H.
    destruct w as [[| resp rest] tr]; cbn [script trace] in *; [discriminate H |].
    destruct resp as [| | | entries e |]; try discriminate H.
    cbv zeta iota beta in H. unfold ret in H.
    destruct e as [e |].
    + exists 1. destruct (svc_Is e ErrKeyNotExist); inversion H; reflexivity.
    + apply IH in H. destruct H as [n Hn]. exists (S n).
      rewrite Hn. cbn [trace]. rewrite !overwrite_length, <- app_assoc. reflexivity.
Qed.

(** The bound on the iterations is never what stops the loop: any bound
    above the length of the script gives the same run. *)
Lemma batchLoop_fuel (fuel1 : nat) :
  forall (fuel2 : nat) (m : ebpf_Map) (keys : list K) (vals : list V) (count : nat)
         (w : World K V),
    List.length (script w) < fuel1 -> List.length (script w) < fuel2 ->
    batchLoop fuel1 m keys vals count w = batchLoop fuel2 m keys vals count w.
Proof.
  induction fuel1 as [| fuel1 IH]; intros fuel2 m keys vals count w H1 H2; [lia |].
  destruct fuel2 as [| fuel2]; [lia |].
  cbn [batchLoop]. unfold bind. rewrite BatchLookup_cases.
  destruct w as [[| resp rest] tr]; cbn [script trace] in *; [reflexivity |].
  destruct resp as [| | | entries e |]; try reflexivity.
  cbv zeta iota beta. destruct e as [e |]; [reflexivity |].
  apply IH; cbn [script List.length] in *; lia.
Qed.

End Loops.

(** ** Enumeration with the cursor loop *)

Lemma groupsOf_eq (keys : list GroupV4Key) :
  forall out, groupsOf keys out = (out ++ map (fun k => AddrV4 (Group k)) keys, None).
Proof.
  induction keys as [| k keys IH]; intros out; cbn [groupsOf map].
  - rewrite app_nil_r. reflexivity.
  - rewrite GroupV4Key_ToNetIPAddr_eq. cbn [negb]. cbv iota.
    rewrite IH, <- app_assoc. reflexivity.
Qed.

Lemma subscribersOf_eq (vals : list SubscriberV4Val) :
  forall out, subscribersOf vals out = (out ++ map subscriber_of vals, None).
Proof.
  induction vals as [| v vals IH]; intros out; cbn [subscribersOf map].
  - rewrite app_nil_r. reflexivity.
  - rewrite ToSubsciberV4_eq, IH, <- app_assoc. reflexivity.
Qed.

(** What [ListBatch] returns when the fetches before the first error all
    succeed: on "no more entries", the first [count] slots of the key buffer
    as it is after the last fetch; on any other error, nothing and the
    error.  One call is made per fetch and the script after the error is
    left unread. *)
Lemma ListBatch_run (m : GroupV4OuterMap) (pre : list (list (GroupV4Key * GroupV4Val)))
  (last : list (GroupV4Key * GroupV4Val)) (e : svc_error)
  (rest : list (Resp GroupV4Key GroupV4Val)) (tr : list (Call GroupV4Val)) :
  GroupV4OuterMap_ListBatch m
    {| script := map fetch_more pre ++ RespBatch last (Some e) :: rest; trace := tr |}
  = Returns
      (if svc_Is e ErrKeyNotExist
       then let '(keys, _, count) :=
              after_fetches (repeat zero MaxGroups) (repeat zero MaxGroups) 0 (pre ++ [last]) in
            (map (fun k => AddrV4 (Group k)) (firstn count keys), None)
       else ([], Some (FromSvc e)))
      {| script := rest;
         trace := tr ++ repeat (CallBatchLookup (Map m) MaxGroups MaxGroups)
                               (S (List.length pre)) |}.
Proof.
  unfold GroupV4OuterMap_ListBatch, with_fuel. unfold bind at 1.
  rewrite batchLoop_run
    by (cbn [script]; rewrite length_app, length_map; cbn [List.length]; lia).
  rewrite !repeat_length.
  destruct (after_fetches _ _ 0 (pre ++ [last])) as [[keys vals] count].
  destruct (svc_Is e ErrKeyNotExist); unfold ret; [| reflexivity].
  rewrite groupsOf_eq. reflexivity.
Qed.

Lemma SubscriberV4InnerMap_List_run (m : SubscriberV4InnerMap)
  (pre : list (list (SubscriberV4Key * SubscriberV4Val)))
  (last : list (SubscriberV4Key * SubscriberV4Val)) (e : svc_error)
  (rest : list (Resp SubscriberV4Key SubscriberV4Val)) (tr : list (Call SubscriberV4Val)) :
  SubscriberV4InnerMap_List m
    {| script := map fetch_more pre ++ RespBatch last (Some e) :: rest; trace := tr |}
  = Returns
      (if svc_Is e ErrKeyNotExist
       then let '(_, vals, count) :=
              after_fetches (repeat zero MaxSubscribers) (repeat zero MaxSubscribers) 0
                            (pre ++ [last]) in
            (map subscriber_of (firstn count vals), None)
       else ([], Some (FromSvc e)))
      {| script := rest;
         trace := tr ++ repeat (CallBatchLookup (sub_Map m) MaxSubscribers MaxSubscribers)
                               (S (List.length pre)) |}.
Proof.
  unfold SubscriberV4InnerMap_List, with_fuel. unfold bind at 1.
  rewrite batchLoop_run
    by (cbn [script]; rewrite length_app, length_map; cbn [List.length]; lia).
  rewrite !repeat_length.
  destruct (after_fetches _ _ 0 (pre ++ [last])) as [[keys vals] count].
  destruct (svc_Is e ErrKeyNotExist); unfold ret; [| reflexivity].
  rewrite subscribersOf_eq. reflexivity.
Qed.

(** When one fetch delivers the whole table, the list is the table. *)
Lemma after_single_fetch {K V} `{GoZero K} `{GoZero V} (entries : list (K * V)) (n : nat) :
  List.length entries <= n ->
  after_fetches (repeat (zero : K) n) (repeat (zero : V) n) 0 [entries]
  = (overwrite (map fst entries) (repeat zero n), overwrite (map snd entries) (repeat zero n),
     List.length entries).
Proof.
  intros Hn. cbn [after_fetches]. rewrite !repeat_length, Nat.min_id.
  rewrite Nat.min_l by assumption. rewrite firstn_all. reflexivity.
Qed.

Lemma ListBatch_single_fetch (m : GroupV4OuterMap) (entries : list (GroupV4Key * GroupV4Val))
  (rest : list (Resp GroupV4Key GroupV4Val)) (tr : list (Call GroupV4Val)) :
  List.length entries <= MaxGroups ->
  GroupV4OuterMap_ListBatch m {| script := batch_script [] entries ++ rest; trace := tr |}
  = Returns (map group_addr entries, None)
            {| script := rest; trace := tr ++ [CallBatchLookup (Map m) MaxGroups MaxGroups] |}.
Proof.
  intros Hn.
  change (batch_script [] entries ++ rest)
    with (map fetch_more [] ++ RespBatch entries (Some (SvcSentinel ErrKeyNotExist)) :: rest).
  rewrite (ListBatch_run m [] entries (SvcSentinel ErrKeyNotExist) rest tr).
  cbn [svc_Is sentinel_eqb app List.length repeat].
  rewrite after_single_fetch by assumption.
  replace (List.length entries) with (List.length (map fst entries)) at 1
    by apply length_map.
  rewrite firstn_overwrite by (rewrite length_map, repeat_length; assumption).
  rewrite map_map. reflexivity.
Qed.

Lemma SubscriberV4InnerMap_List_single_fetch (m : SubscriberV4InnerMap)
  (entries : list (SubscriberV4Key * SubscriberV4Val))
  (rest : list (Resp SubscriberV4Key SubscriberV4Val)) (tr : list (Call SubscriberV4Val)) :
  List.length entries <= MaxSubscribers ->
  SubscriberV4InnerMap_List m {| script := batch_script [] entries ++ rest; trace := tr |}
  = Returns (map (fun e => subscriber_of (snd e)) entries, None)
            {| script := rest;
               trace := tr ++ [CallBatchLookup (sub_Map m) MaxSubscribers MaxSubscribers] |}.
Proof.
  intros Hn.
  change (batch_script [] entries ++ rest)
    with (map fetch_more [] ++ RespBatch entries (Some (SvcSentinel ErrKeyNotExist)) :: rest).
  rewrite (SubscriberV4InnerMap_List_run m [] entries (SvcSentinel ErrKeyNotExist) rest tr).
  cbn [svc_Is sentinel_eqb app List.length repeat].
  rewrite after_single_fetch by assumption.
  replace (List.length entries) with (List.length (map snd entries)) at 1
    by apply length_map.
  rewrite firstn_overwrite by (rewrite length_map, repeat_length; assumption).
  rewrite map_map. reflexivity.
Qed.

(** ** Enumeration with the iterator *)

Lemma Next_cases (iter : @MapIterator) (w : World GroupV4Key GroupV4Val) :
  Next iter w
  = match script w with
    | RespNext s :: rest =>
        Returns (match s with
                 | NextEntry k v => (Some (k, v), iter)
                 | NextDone => (None, iter)
                 | NextFail e => (None, {| iter_map := iter_map iter; iter_err := Some e |})
                 end)
                {| script := rest; trace := trace w ++ [CallNext (iter_map iter)] |}
    | _ => Starved
    end.
Proof.
  unfold Next, bind, call. destruct (script w) as [| [| | | | []] ?]; reflexivity.
Qed.

(** Entries keep the loop going; the end of the table or a failure ends it,
    after one call per step, with every address collected so far. *)
Lemma iterLoop_run (entries : list (GroupV4Key * GroupV4Val)) :
  forall (fuel : nat) (iter : MapIterator) (out : list Addr) (e : option svc_error)
         (rest : list (Resp GroupV4Key GroupV4Val)) (tr : list (Call GroupV4Val)),
    List.length entries < fuel ->
    iter_err iter = None ->
    iterLoop fuel iter out {| script := iter_script entries ++ iter_end e :: rest; trace := tr |}
    = Returns (out ++ map group_addr entries, option_map FromSvc e)
              {| script := rest;
                 trace := tr ++ repeat (CallNext (iter_map iter)) (S (List.length entries)) |}.
Proof.
  induction entries as [| [k v] entries IH]; intros fuel iter out e rest tr Hfuel Herr;
    (destruct fuel as [| fuel]; [simpl in Hfuel; lia |]).
  - cbn [iterLoop iter_script map app]. unfold bind at 1. rewrite Next_cases.
    cbn [script trace]. unfold iter_end.
    destruct e as [e |]; unfold Err, ret; cbn [iter_err option_map List.length repeat map];
      rewrite ?Herr, app_nil_r; reflexivity.
  - cbn [iterLoop iter_script map app fst snd]. unfold bind at 1. rewrite Next_cases.
    cbn [script trace]. rewrite GroupV4Key_ToNetIPAddr_eq. cbn [negb]. cbv iota.
    fold (iter_script entries).
    rewrite IH by (simpl in Hfuel; lia || assumption).
    cbn [map List.length repeat group_addr fst]. rewrite <- !app_assoc. reflexivity.
Qed.

Lemma ListIterator_run (m : GroupV4OuterMap) (entries : list (GroupV4Key * GroupV4Val))
  (e : option svc_error) (rest : list (Resp GroupV4Key GroupV4Val))
  (tr : list (Call GroupV4Val)) :
  GroupV4OuterMap_ListIterator m
    {| script := iter_script entries ++ iter_end e :: rest; trace := tr |}
  = Returns (map group_addr entries, option_map FromSvc e)
            {| script := rest;
               trace := tr ++ repeat (CallNext (Map m)) (S (List.length entries)) |}.
Proof.
  unfold GroupV4OuterMap_ListIterator, with_fuel.
  rewrite iterLoop_run; [reflexivity | | reflexivity].
  cbn [script]. unfold iter_script. rewrite length_app, length_map. cbn [List.length]. lia.
Qed.

Lemma iterLoop_fuel (fuel1 : nat) :
  forall (fuel2 : nat) (iter : MapIterator) (out : list Addr)
         (w : World GroupV4Key GroupV4Val),
    List.length (script w) < fuel1 -> List.length (script w) < fuel2 ->
    iterLoop fuel1 iter out w = iterLoop fuel2 iter out w.
Proof.
  induction fuel1 as [| fuel1 IH]; intros fuel2 iter out w H1 H2; [lia |].
  destruct fuel2 as [| fuel2]; [lia |].
  cbn [iterLoop]. unfold bind. rewrite Next_cases.
  destruct w as [[| resp rest] tr]; cbn [script trace] in *; [reflexivity |].
  destruct resp as [| | | | s]; try reflexivity.
  destruct s as [k v | | e]; try reflexivity.
  rewrite GroupV4Key_ToNetIPAddr_eq. cbn [negb]. cbv iota.
  apply IH; cbn [script List.length] in *; lia.
Qed.

(** Whatever the script, the loop never leaves through its key-conversion
    exit, and its calls are iterator steps. *)
Lemma iterLoop_exits (fuel : nat) :
  forall (iter : MapIterator) (out : list Addr) (w : World GroupV4Key GroupV4Val) r w',
    iterLoop fuel iter out w = Returns r w' ->
    (snd r = None \/ exists e, snd r = Some (FromSvc e))
    /\ exists n, trace w' = trace w ++ repeat (CallNext (iter_map iter)) n.
Proof.
  induction fuel as [| fuel IH]; intros iter out w r w' H.
  - discriminate H.
  - cbn [iterLoop] in H. unfold bind at 1 in H. rewrite Next_cases in H.
    destruct w as [[| resp rest] tr]; cbn [script trace] in *; [discriminate H |].
    destruct resp as [| | | | s]; try discriminate H.
    destruct s as [k v | | e].
    + rewrite GroupV4Key_ToNetIPAddr_eq in H. cbn [negb] in H. cbv iota in H.
      apply IH in H. destruct H as [Hr [n Hn]]. split; [exact Hr |].
      exists (S n). rewrite Hn. cbn [trace repeat]. rewrite <- app_assoc. reflexivity.
    + unfold ret in H. inversion H; subst. split.
      * cbn [snd]. unfold Err. destruct (iter_err iter); [right; eexists | left]; reflexivity.
      * exists 1. reflexivity.
    + unfold ret in H. inversion H; subst. split.
      * right. eexists. reflexivity.
      * exists 1. reflexivity.
Qed.

(** C10: a group key always converts to an address, so neither enumeration
    can leave through its conversion-failure exit: an error returned by
    [ListIterator] or [ListBatch] is always one that the table service
    produced. *)
Theorem C10_key_conversion_never_fails :
  (forall k, GroupV4Key_ToNetIPAddr k = (AddrV4 (Group k), true))
  /\ (forall m w, match GroupV4OuterMap_ListIterator m w with
                  | Returns (_, Some (Errorf _ _ _)) _ => False
                  | _ => True
                  end)
  /\ (forall m w, match GroupV4OuterMap_ListBatch m w with
                  | Returns (_, Some (Errorf _ _ _)) _ => False
                  | _ => True
                  end).
Proof.
  split; [exact GroupV4Key_ToNetIPAddr_eq | split]; intros m w.
  - destruct (GroupV4OuterMap_ListIterator m w) as [[out err] w' | |] eqn:E; trivial.
    unfold GroupV4OuterMap_ListIterator, with_fuel in E.
    apply iterLoop_exits in E. destruct E as [[E | [e E]] _]; cbn [snd] in E; subst; trivial.
  - unfold GroupV4OuterMap_ListBatch. unfold bind at 1.
    destruct (with_fuel _ w) as [[[[keys vals] count] [e |]] w' | |];
      unfold ret; rewrite ?groupsOf_eq; trivial.
Qed.

(** C1 fails on the code.  Two fetches enumerate the table: the first
    delivers 224.0.0.1, .2 and .3 and leaves more to fetch, the second
    delivers .4 and .5 and reports the end.  The second fetch is written
    over the start of the same buffer, and the five slots that the summed
    count covers are then read: .4, .5, .3 and two zero keys.  The list is
    not the concatenation of the fetches, and .1 and .2 are lost.  The
    subscriber list does the same. *)
Theorem C1_later_fetch_overwrites_earlier :
  result (GroupV4OuterMap_ListBatch (outer true)
            (world (batch_script [[gentry x01; gentry x02; gentry x03]]
                                 [gentry x04; gentry x05])))
  = Some ([IPv4 xe0 x00 x00 x04; IPv4 xe0 x00 x00 x05; IPv4 xe0 x00 x00 x03;
           IPv4 x00 x00 x00 x00; IPv4 x00 x00 x00 x00], None)
  /\ map group_addr (List.concat [[gentry x01; gentry x02; gentry x03]; [gentry x04; gentry x05]])
     = [IPv4 xe0 x00 x00 x01; IPv4 xe0 x00 x00 x02; IPv4 xe0 x00 x00 x03;
        IPv4 xe0 x00 x00 x04; IPv4 xe0 x00 x00 x05]
  /\ result (SubscriberV4InnerMap_List inner
               (world (batch_script [[sentry x01 0; sentry x02 1]] [sentry x03 0])))
     = Some ([subscriber_of (snd (sentry x03 0)); subscriber_of (snd (sentry x02 1));
              subscriber_of zero], None)
  /\ map (fun e => subscriber_of (snd e)) (List.concat [[sentry x01 0; sentry x02 1]; [sentry x03 0]])
     = [subscriber_of (snd (sentry x01 0)); subscriber_of (snd (sentry x02 1));
        subscriber_of (snd (sentry x03 0))].
Proof. repeat split; vm_compute; reflexivity. Qed.

(** C3, as stated, fails for the cursor loop: after a first fetch that
    delivered two entries, a second fetch fails with errno 1, and both batch
    enumerations return the error with an empty list, not with the two
    entries fetched so far. *)
Lemma C3_counterexample :
  GroupV4OuterMap_List (outer true)
    (world [fetch_more [gentry x01; gentry x02]; RespBatch [] (Some (SvcErrno 1))])
  = Returns ([], Some (FromSvc (SvcErrno 1)))
            {| script := [];
               trace := [CallBatchLookup (Map (outer true)) MaxGroups MaxGroups;
                         CallBatchLookup (Map (outer true)) MaxGroups MaxGroups] |}
  /\ map group_addr [gentry x01; gentry x02] = [IPv4 xe0 x00 x00 x01; IPv4 xe0 x00 x00 x02]
  /\ SubscriberV4InnerMap_List inner
       (world [fetch_more [sentry x01 0; sentry x02 1]; RespBatch [] (Some (SvcErrno 1))])
     = Returns ([], Some (FromSvc (SvcErrno 1)))
               {| script := [];
                  trace := [CallBatchLookup (sub_Map inner) MaxSubscribers MaxSubscribers;
                            CallBatchLookup (sub_Map inner) MaxSubscribers MaxSubscribers] |}.
Proof. repeat split; vm_compute; reflexivity. Qed.

(** C3, amended: every enumeration stops at the first fetch step that fails
    with an error other than "no more entries", having made one call per
    step and none after the failure.  The iterator strategy returns the
    addresses collected so far with the error; the cursor loop of the batch
    strategy and of the subscriber list returns the error with no
    entries. *)
Theorem C3_enumeration_stops_at_first_error
  (m : GroupV4OuterMap) (sm : SubscriberV4InnerMap)
  (entries : list (GroupV4Key * GroupV4Val))
  (pre : list (list (GroupV4Key * GroupV4Val))) (last : list (GroupV4Key * GroupV4Val))
  (spre : list (list (SubscriberV4Key * SubscriberV4Val)))
  (slast : list (SubscriberV4Key * SubscriberV4Val))
  (e : svc_error)
  (rest : list (Resp GroupV4Key GroupV4Val)) (tr : list (Call GroupV4Val))
  (srest : list (Resp SubscriberV4Key SubscriberV4Val)) (str : list (Call SubscriberV4Val)) :
  svc_Is e ErrKeyNotExist = false ->
  (batchLookupSupported m = false ->
   GroupV4OuterMap_List m
     {| script := iter_script entries ++ iter_end (Some e) :: rest; trace := tr |}
   = Returns (map group_addr entries, Some (FromSvc e))
             {| script := rest;
                trace := tr ++ repeat (CallNext (Map m)) (S (List.length entries)) |})
  /\ (batchLookupSupported m = true ->
      GroupV4OuterMap_List m
        {| script := map fetch_more pre ++ RespBatch last (Some e) :: rest; trace := tr |}
      = Returns ([], Some (FromSvc e))
                {| script := rest;
                   trace := tr ++ repeat (CallBatchLookup (Map m) MaxGroups MaxGroups)
                                         (S (List.length pre)) |})
  /\ SubscriberV4InnerMap_List sm
       {| script := map fetch_more spre ++ RespBatch slast (Some e) :: srest; trace := str |}
     = Returns ([], Some (FromSvc e))
               {| script := srest;
                  trace := str ++ repeat (CallBatchLookup (sub_Map sm) MaxSubscribers
                                                          MaxSubscribers)
                                         (S (List.length spre)) |}.
Proof.
  intros He. split; [| split].
  - intros Hb. unfold GroupV4OuterMap_List. rewrite Hb.
    apply (ListIterator_run m entries (Some e) rest tr).
  - intros Hb. unfold GroupV4OuterMap_List. rewrite Hb.
    rewrite ListBatch_run, He. reflexivity.
  - rewrite SubscriberV4InnerMap_List_run, He. reflexivity.
Qed.

Lemma C3_enumeration_stops_at_first_error_witness :
  GroupV4OuterMap_List (outer false)
    {| script := iter_script [gentry x01; gentry x02] ++
                 iter_end (Some (SvcErrno 1)) :: [RespNext NextDone];
       trace := [] |}
  = Returns (map group_addr [gentry x01; gentry x02], Some (FromSvc (SvcErrno 1)))
            {| script := [RespNext NextDone];
               trace := [] ++ repeat (CallNext (Map (outer false))) 3 |}
  /\ GroupV4OuterMap_List (outer true)
       {| script := map fetch_more [[gentry x01; gentry x02]] ++
                    RespBatch [] (Some (SvcErrno 1)) :: [fetch_more [gentry x03]];
          trace := [] |}
     = Returns ([], Some (FromSvc (SvcErrno 1)))
               {| script := [fetch_more [gentry x03]];
                  trace := [] ++ repeat (CallBatchLookup (Map (outer true)) MaxGroups
                                                         MaxGroups) 2 |}.
Proof.
  split.
  - apply (C3_enumeration_stops_at_first_error (outer false) inner [gentry x01; gentry x02]
             [] [] [] [] (SvcErrno 1) [RespNext NextDone] [] [] []);
      reflexivity.
  - apply (C3_enumeration_stops_at_first_error (outer true) inner []
             [[gentry x01; gentry x02]] [] [] [] (SvcErrno 1) [fetch_more [gentry x03]]
             [] [] []);
      reflexivity.
Defined.

(** ** The two strategies of [List] *)

(** When the bulk fetch delivers the whole table in its first call, the
    batch strategy and the iterator strategy return the same addresses, in
    the same order, for any table within capacity. *)
Lemma List_strategies_agree_single_fetch (m : ebpf_Map)
  (entries : list (GroupV4Key * GroupV4Val)) :
  List.length entries <= MaxGroups ->
  result (GroupV4OuterMap_List {| Map := m; batchLookupSupported := true |}
            (world (batch_script [] entries)))
  = Some (map group_addr entries, None)
  /\ result (GroupV4OuterMap_List {| Map := m; batchLookupSupported := false |}
               (world (iter_script entries ++ [iter_end None])))
     = Some (map group_addr entries, None).
Proof.
  intros Hn. unfold GroupV4OuterMap_List, world. cbn [batchLookupSupported]. split.
  - rewrite <- (app_nil_r (batch_script [] entries)).
    rewrite ListBatch_single_fetch by assumption. reflexivity.
  - rewrite ListIterator_run. reflexivity.
Qed.

(** C5 fails on the code, by the defect of C1.  The outer map holds
    224.0.0.1, .2 and .3.  The iterator strategy returns the three of them.
    When the bulk fetch delivers them in two calls (.1 and .2, then .3 with
    "no more entries"), the batch strategy returns .3, .2 and 0.0.0.0: a
    different set of addresses for the same table. *)
Theorem C5_strategies_disagree_on_two_fetches :
  result (GroupV4OuterMap_List (outer false)
            (world (iter_script [gentry x01; gentry x02; gentry x03] ++ [iter_end None])))
  = Some ([IPv4 xe0 x00 x00 x01; IPv4 xe0 x00 x00 x02; IPv4 xe0 x00 x00 x03], None)
  /\ result (GroupV4OuterMap_List (outer true)
               (world (batch_script [[gentry x01; gentry x02]] [gentry x03])))
     = Some ([IPv4 xe0 x00 x00 x03; IPv4 xe0 x00 x00 x02; IPv4 x00 x00 x00 x00], None)
  /\ ~ Permutation [IPv4 xe0 x00 x00 x01; IPv4 xe0 x00 x00 x02; IPv4 xe0 x00 x00 x03]
                   [IPv4 xe0 x00 x00 x03; IPv4 xe0 x00 x00 x02; IPv4 x00 x00 x00 x00].
Proof.
  split; [vm_compute; reflexivity | split; [vm_compute; reflexivity |]].
  intros HP.
  assert (Hin : In (IPv4 xe0 x00 x00 x01)
                   [IPv4 xe0 x00 x00 x03; IPv4 xe0 x00 x00 x02; IPv4 x00 x00 x00 x00])
    by (apply (Permutation_in _ HP); left; reflexivity).
  cbn [In] in Hin. destruct Hin as [H | [H | [H | []]]]; discriminate H.
Qed.

(** ** The capability probe *)

Lemma haveBatchLookupSupport_run (m : ebpf_Map) (entries : list (GroupV4Key * GroupV4Val))
  (e : option svc_error) (rest : list (Resp GroupV4Key GroupV4Val))
  (tr : list (Call GroupV4Val)) :
  haveBatchLookupSupport m {| script := RespBatch entries e :: rest; trace := tr |}
  = Returns (probe_answer e) {| script := rest; trace := tr ++ [CallBatchLookup m 1 1] |}.
Proof.
  unfold haveBatchLookupSupport, bind. rewrite BatchLookup_run. cbv zeta iota beta.
  destruct e as [e |]; cbn [probe_answer]; [| reflexivity].
  destruct (svc_Is e ErrNotSupported); reflexivity.
Qed.

Lemma List_calls (m : GroupV4OuterMap) (w : World GroupV4Key GroupV4Val)
  (r : list Addr * option error) (w' : World GroupV4Key GroupV4Val) :
  GroupV4OuterMap_List m w = Returns r w' ->
  exists n, trace w' = trace w ++
                       repeat (if batchLookupSupported m
                               then CallBatchLookup (Map m) MaxGroups MaxGroups
                               else CallNext (Map m)) n.
Proof.
  unfold GroupV4OuterMap_List. destruct (batchLookupSupported m); intros H.
  - unfold GroupV4OuterMap_ListBatch in H. unfold bind at 1 in H.
    destruct (with_fuel _ w) as [[[[keys vals] count] batchErr] w1 | |] eqn:E;
      try discriminate H.
    unfold with_fuel in E. apply batchLoop_calls in E. rewrite !repeat_length in E.
    destruct batchErr; unfold ret in H; inversion H; subst; exact E.
  - unfold GroupV4OuterMap_ListIterator, with_fuel in H.
    apply iterLoop_exits in H. exact (proj2 H).
Qed.

(** C6: the probe makes one bulk fetch into buffers of one element and
    answers false exactly when that fetch fails with an error that is
    [ErrNotSupported]; on success and on any other error it answers true.
    Opening a pinned outer map, and the start hook of a new one, probe once
    after the open and store the answer on the map; a failed open probes
    nothing.  [List] reads the stored answer: it runs the cursor loop or the
    iterator accordingly and its calls are those of the strategy, never the
    probe's. *)
Theorem C6_probe_once_and_cached
  (m : ebpf_Map) (groupMap : GroupV4OuterMap) (name : string) (d : Z)
  (entries : list (GroupV4Key * GroupV4Val)) (e : option svc_error) (oe : svc_error)
  (rest : list (Resp GroupV4Key GroupV4Val)) (tr : list (Call GroupV4Val)) :
  haveBatchLookupSupport m {| script := RespBatch entries e :: rest; trace := tr |}
  = Returns (probe_answer e) {| script := rest; trace := tr ++ [CallBatchLookup m 1 1] |}
  /\ (probe_answer e = false <-> exists e', e = Some e' /\ svc_Is e' ErrNotSupported = true)
  /\ OpenGroupV4OuterMap name
       {| script := RespOpen (inr d) :: RespBatch entries e :: rest; trace := tr |}
     = Returns (inr {| Map := {| Name := name; fd := Some d |};
                       batchLookupSupported := probe_answer e |})
               {| script := rest;
                  trace := tr ++ [CallLoadRegisterMap name;
                                  CallBatchLookup {| Name := name; fd := Some d |} 1 1] |}
  /\ OnStart groupMap
       {| script := RespOpen (inr d) :: RespBatch entries e :: rest; trace := tr |}
     = Returns ({| Map := {| Name := Name (Map groupMap); fd := Some d |};
                   batchLookupSupported := probe_answer e |}, None)
               {| script := rest;
                  trace := tr ++ [CallOpenOrCreate (Name (Map groupMap));
                                  CallBatchLookup {| Name := Name (Map groupMap);
                                                     fd := Some d |} 1 1] |}
  /\ OnStart groupMap {| script := RespOpen (inl oe) :: rest; trace := tr |}
     = Returns (groupMap, Some (FromSvc oe))
               {| script := rest; trace := tr ++ [CallOpenOrCreate (Name (Map groupMap))] |}
  /\ GroupV4OuterMap_List groupMap
     = (if batchLookupSupported groupMap then GroupV4OuterMap_ListBatch groupMap
        else GroupV4OuterMap_ListIterator groupMap)
  /\ (forall w r w',
        GroupV4OuterMap_List groupMap w = Returns r w' ->
        exists n, trace w' = trace w ++
                             repeat (if batchLookupSupported groupMap
                                     then CallBatchLookup (Map groupMap) MaxGroups MaxGroups
                                     else CallNext (Map groupMap)) n)
  /\ MaxGroups <> 1.
Proof.
  split; [apply haveBatchLookupSupport_run |].
  split.
  { unfold probe_answer. destruct e as [e' |].
    - destruct (svc_Is e' ErrNotSupported) eqn:E; cbn [negb]; split.
      + intros _. exists e'. split; [reflexivity | exact E].
      + reflexivity.
      + discriminate.
      + intros [e2 [He2 Hs]]. inversion He2; subst. rewrite E in Hs. discriminate Hs.
    - split; [discriminate | intros [e2 [He2 _]]; discriminate He2]. }
  split.
  { unfold OpenGroupV4OuterMap. unfold bind at 1. cbn [LoadRegisterMap].
    unfold LoadRegisterMap, bind at 1, call. cbn [script trace]. unfold ret at 1.
    unfold bind at 1. rewrite haveBatchLookupSupport_run. unfold ret.
    rewrite <- app_assoc. reflexivity. }
  split.
  { unfold OnStart. unfold bind at 1. unfold OpenOrCreate, bind at 1, call.
    cbn [script trace]. unfold ret at 1. cbn [Map].
    unfold bind at 1. rewrite haveBatchLookupSupport_run. unfold ret.
    rewrite <- app_assoc. reflexivity. }
  split.
  { destruct groupMap as [gm b]. reflexivity. }
  split; [reflexivity |].
  split; [apply List_calls |].
  unfold MaxGroups. lia.
Qed.

Lemma C6_probe_once_and_cached_witness :
  exists n,
    trace {| script := [] : list (Resp GroupV4Key GroupV4Val);
             trace := [CallBatchLookup (Map (outer true)) MaxGroups MaxGroups] |}
    = trace (world (batch_script [] [gentry x01])) ++
      repeat (if batchLookupSupported (outer true)
              then CallBatchLookup (Map (outer true)) MaxGroups MaxGroups
              else CallNext (Map (outer true))) n.
Proof.
  apply (proj1 (proj2 (proj2 (proj2 (proj2 (proj2 (proj2
           (C6_probe_once_and_cached (Map (outer true)) (outer true) GroupOuter4MapName 3
              [] None (SvcErrno 1) [] []))))))))
    with (r := ([IPv4 xe0 x00 x00 x01], None)).
  vm_compute. reflexivity.
Defined.

(** ** More on the address codec *)

Lemma multicast_octet (b : byte) :
  N.eqb (N.land (Byte.to_N b) 0xf0) 0xe0
  = (N.leb 224 (Byte.to_N b) && N.leb (Byte.to_N b) 239).
Proof. destruct b; reflexivity. Qed.

Lemma NewGroupV4KeyFromNetIPAddr_V4 (x : byte4) :
  NewGroupV4KeyFromNetIPAddr (AddrV4 x)
  = if N.leb 224 (Byte.to_N (b0 x)) && N.leb (Byte.to_N (b0 x)) 239
    then Some ({| Group := x |}, None)
    else Some (zero, Some (Errorf "ip must be an IPv4 multicast address" [] None)).
Proof.
  unfold NewGroupV4KeyFromNetIPAddr. cbn [Is4 negb orb IsMulticast Is4In6 As4].
  rewrite multicast_octet.
  destruct (N.leb 224 (Byte.to_N (b0 x)) && N.leb (Byte.to_N (b0 x)) 239); reflexivity.
Qed.

Lemma NewGroupV4KeyFromNetIPAddr_not_V4 (a : Addr) :
  Is4 a = false ->
  NewGroupV4KeyFromNetIPAddr a
  = Some (zero, Some (Errorf "ip must be an IPv4 multicast address" [] None)).
Proof. intros H. unfold NewGroupV4KeyFromNetIPAddr. rewrite H. reflexivity. Qed.

(** X1: a subscriber key round-trips in both directions.  Every IPv4
    address, multicast or not, encodes to a key that decodes to the same
    address; and every key decodes to an address that encodes to the same
    key. *)
Theorem X1_subscriber_key_roundtrip (a : Addr) (k : SubscriberV4Key) :
  Is4 a = true ->
  (exists k', NewSubscriberV4KeyFromNetIPAddr a = Some (k', None)
              /\ SubscriberV4Key_ToNetIPAddr k' = (a, true))
  /\ NewSubscriberV4KeyFromNetIPAddr (fst (SubscriberV4Key_ToNetIPAddr k)) = Some (k, None).
Proof.
  intros H4. destruct (Is4_inv _ H4) as [x ->]. split.
  - exists {| SAddr := x |}. split; [reflexivity | apply SubscriberV4Key_ToNetIPAddr_eq].
  - rewrite SubscriberV4Key_ToNetIPAddr_eq. destruct k as [x']. reflexivity.
Qed.

Lemma X1_subscriber_key_roundtrip_witness :
  (exists k', NewSubscriberV4KeyFromNetIPAddr (IPv4 xc0 xa8 x01 x0a) = Some (k', None)
              /\ SubscriberV4Key_ToNetIPAddr k' = (IPv4 xc0 xa8 x01 x0a, true))
  /\ NewSubscriberV4KeyFromNetIPAddr
       (fst (SubscriberV4Key_ToNetIPAddr {| SAddr := Byte4 x0a x00 x00 x01 |}))
     = Some ({| SAddr := Byte4 x0a x00 x00 x01 |}, None).
Proof.
  apply (X1_subscriber_key_roundtrip (IPv4 xc0 xa8 x01 x0a)
           {| SAddr := Byte4 x0a x00 x00 x01 |}).
  reflexivity.
Defined.

(** X2: the group key constructor accepts exactly the IPv4 addresses whose
    first octet is between 224 and 239 (224.0.0.0/4), and the key it makes
    holds the four octets of the address; an IPv6 address, also an
    IPv4-mapped one, and the zero address are refused. *)
Theorem X2_group_key_accepts_224_0_0_0_slash_4 (a : Addr) (k : GroupV4Key) :
  NewGroupV4KeyFromNetIPAddr a = Some (k, None)
  <-> (a = AddrV4 (Group k)
       /\ (224 <= Byte.to_N (b0 (Group k)))%N /\ (Byte.to_N (b0 (Group k)) <= 239)%N).
Proof.
  split.
  - destruct a as [| x | hi lo z].
    + rewrite NewGroupV4KeyFromNetIPAddr_not_V4 by reflexivity. discriminate.
    + rewrite NewGroupV4KeyFromNetIPAddr_V4.
      destruct (N.leb 224 (Byte.to_N (b0 x))) eqn:E1; cbn [andb]; [| discriminate].
      destruct (N.leb (Byte.to_N (b0 x)) 239) eqn:E2; [| discriminate].
      intros H. inversion H; subst. cbn [Group].
      apply N.leb_le in E1. apply N.leb_le in E2. auto.
    + rewrite NewGroupV4KeyFromNetIPAddr_not_V4 by reflexivity. discriminate.
  - intros [-> [H1 H2]]. rewrite NewGroupV4KeyFromNetIPAddr_V4.
    apply N.leb_le in H1. apply N.leb_le in H2. rewrite H1, H2.
    destruct k as [x]. reflexivity.
Qed.

(** X3: decoding a group key does not check the address class.  Every
    4-byte key decodes to the IPv4 address of its octets, and that address
    is accepted again as a group address only when the first octet is
    between 224 and 239: for any other key, such as the zero key of an
    unused buffer slot, the decoded address is one that the constructor
    refuses. *)
Theorem X3_group_key_decode_then_encode (k : GroupV4Key) :
  GroupV4Key_ToNetIPAddr k = (AddrV4 (Group k), true)
  /\ NewGroupV4KeyFromNetIPAddr (fst (GroupV4Key_ToNetIPAddr k))
     = if N.leb 224 (Byte.to_N (b0 (Group k))) && N.leb (Byte.to_N (b0 (Group k))) 239
       then Some (k, None)
       else Some (zero, Some (Errorf "ip must be an IPv4 multicast address" [] None)).
Proof.
  rewrite GroupV4Key_ToNetIPAddr_eq. split; [reflexivity |].
  cbn [fst]. rewrite NewGroupV4KeyFromNetIPAddr_V4. destruct k as [x]. reflexivity.
Qed.

(** ** Validation comes first *)





(** ** The exits of [Insert] into the outer map *)

Lemma NewGroupV4KeyFromNetIPAddr_cases (a : Addr) :
  exists k e, NewGroupV4KeyFromNetIPAddr a = Some (k, e).
Proof.
  destruct a as [| x | hi lo z].
  - rewrite NewGroupV4KeyFromNetIPAddr_not_V4 by reflexivity. eauto.
  - rewrite NewGroupV4KeyFromNetIPAddr_V4. destruct (_ && _); eauto.
  - rewrite NewGroupV4KeyFromNetIPAddr_not_V4 by reflexivity. eauto.
Qed.

Lemma NewSubscriberV4KeyFromNetIPAddr_cases (a : Addr) :
  exists k e, NewSubscriberV4KeyFromNetIPAddr a = Some (k, e).
Proof. destruct a; cbn; eauto. Qed.

(** X5: however the table service answers, a run of [Insert] that returns
    took one of the four exits of [InsertExit]: the address is refused; the
    inner map cannot be created; the registration succeeds and the inner map
    is left open; the registration fails and the inner map is closed.  So
    the inner map is closed exactly when its registration failed, and a
    registration is attempted only for an inner map that was created. *)
Theorem X5_insert_exits
  (m : GroupV4OuterMap) (group : Addr) (w w' : World GroupV4Key GroupV4Val)
  (r : option error) :
  GroupV4OuterMap_Insert m group w = Returns r w' ->
  InsertExit m group w r w'.
Proof.
  intros H. destruct (NewGroupV4KeyFromNetIPAddr_cases group) as [k [e Hk]].
  unfold GroupV4OuterMap_Insert, bind, or_panic in H. rewrite Hk in H.
  destruct e as [e |].
  - unfold ret in H. inversion H; subst. eapply ExitRefused; eassumption.
  - destruct w as [s tr]. cbn -[uint32] in H.
    destruct s as [| r1 s]; [discriminate H |].
    destruct r1 as [| [e | d] | | |]; try discriminate H.
    + cbn in H. unfold ret in H. inversion H; subst.
      eapply ExitNotCreated; [eassumption | reflexivity].
    + cbn -[uint32] in H.
      destruct s as [| r2 s]; [discriminate H |].
      destruct r2 as [[e |] | | | |]; try discriminate H.
      * cbn -[uint32] in H.
        destruct s as [| r3 s]; [discriminate H |].
        destruct r3 as [closed | | | |]; try discriminate H.
        cbn -[uint32] in H. unfold ret in H. inversion H; subst. rewrite <- !app_assoc.
        eapply ExitRolledBack; [eassumption | reflexivity].
      * cbn -[uint32] in H. unfold ret in H. inversion H; subst. rewrite <- !app_assoc.
        eapply ExitRegistered; [eassumption | reflexivity].
Qed.

Lemma X5_insert_exits_witness :
  InsertExit (outer true) (IPv4 xe0 x00 x00 x05)
    (world [RespOpen (inr 7%Z); RespErr None; RespErr (Some (SvcErrno 1))])
    None
    {| script := [RespErr (Some (SvcErrno 1))];
       trace := [CallOpenOrCreate "cilium_mcast_subscriber_v4_inner";
                 CallUpdate (Map (outer true)) (Byte4 xe0 x00 x00 x05) {| FD := 7 |}
                            UpdateNoExist] |}.
Proof.
  apply (X5_insert_exits (outer true) (IPv4 xe0 x00 x00 x05)
           (world [RespOpen (inr 7%Z); RespErr None; RespErr (Some (SvcErrno 1))])).
  reflexivity.
Defined.

(** ** Subscribers: insert and lookup *)

Lemma NewSubscriberV4KeyFromNetIPAddr_ok (a : Addr) (key : SubscriberV4Key) :
  NewSubscriberV4KeyFromNetIPAddr a = Some (key, None) -> a = AddrV4 (SAddr key).
Proof.
  destruct a as [| x | hi lo z]; cbn; intros H; inversion H. reflexivity.
Qed.


Lemma byte4_eqb_refl (x : byte4) : byte4_eqb x x = true.
Proof.
  unfold byte4_eqb. rewrite !Byte.byte_dec_lb by reflexivity. reflexivity.
Qed.

(** X6: a subscriber round-trips through the inner map.  For a subscriber
    with an IPv4 address, [Insert] makes one no-overwrite update whose key
    is the four octets and whose value holds the octets, the interface
    index, zero padding and flags 1 for a remote subscriber, 0 for a local
    one; decoding that value, as [Lookup] does when the table returns it,
    gives back the subscriber: address, interface index and locality. *)
Theorem X6_subscriber_insert_lookup_roundtrip
  (m : SubscriberV4InnerMap) (s : SubscriberV4) (key : SubscriberV4Key)
  (rest rest' : list (Resp SubscriberV4Key SubscriberV4Val))
  (tr tr' : list (Call SubscriberV4Val)) :
  NewSubscriberV4KeyFromNetIPAddr (sub_SAddr s) = Some (key, None) ->
  let v := {| SourceAddr := SAddr key; Ifindex := sub_Ifindex s; Pad1 := 0; Pad2 := 0;
              Flags := if sub_IsRemote s then 1%N else 0%N |} in
  SubscriberV4InnerMap_Insert m s {| script := RespErr None :: rest; trace := tr |}
  = Returns None
            {| script := rest;
               trace := tr ++ [CallUpdate (sub_Map m) (SAddr key) v UpdateNoExist] |}
  /\ ToSubsciberV4 v = inr s
  /\ SubscriberV4InnerMap_Lookup m (sub_SAddr s)
       {| script := RespLookup (inr v) :: rest'; trace := tr' |}
     = Returns (inr s)
               {| script := rest'; trace := tr' ++ [CallLookup (sub_Map m) (SAddr key)] |}.
Proof.
  intros Hk v.
  assert (Hv : ToSubsciberV4 v = inr s).
  { rewrite ToSubsciberV4_eq. subst v. cbn [SourceAddr Ifindex Flags].
    pose proof (NewSubscriberV4KeyFromNetIPAddr_ok _ _ Hk) as Ha.
    destruct s as [a i r]. cbn [sub_SAddr sub_Ifindex sub_IsRemote] in *. subst a.
    destruct r; reflexivity. }
  split; [| split; [exact Hv |]].
  - unfold SubscriberV4InnerMap_Insert, bind, or_panic. rewrite Hk.
    subst v. destruct (sub_IsRemote s); reflexivity.
  - unfold SubscriberV4InnerMap_Lookup, bind, or_panic. rewrite Hk.
    cbn -[ToSubsciberV4]. rewrite Hv. reflexivity.
Qed.

Lemma X6_subscriber_insert_lookup_roundtrip_witness :
  SubscriberV4InnerMap_Insert inner
    {| sub_SAddr := IPv4 xc0 xa8 x01 x0a; sub_Ifindex := 7; sub_IsRemote := true |}
    {| script := [RespErr None]; trace := [] |}
  = Returns None
            {| script := [];
               trace := [] ++ [CallUpdate (sub_Map inner) (Byte4 xc0 xa8 x01 x0a)
                                          (snd (sentry x0a 1)) UpdateNoExist] |}
  /\ ToSubsciberV4 (snd (sentry x0a 1))
     = inr {| sub_SAddr := IPv4 xc0 xa8 x01 x0a; sub_Ifindex := 7; sub_IsRemote := true |}
  /\ SubscriberV4InnerMap_Lookup inner (IPv4 xc0 xa8 x01 x0a)
       {| script := [RespLookup (inr (snd (sentry x0a 1)))]; trace := [] |}
     = Returns (inr {| sub_SAddr := IPv4 xc0 xa8 x01 x0a; sub_Ifindex := 7;
                       sub_IsRemote := true |})
               {| script := [];
                  trace := [] ++ [CallLookup (sub_Map inner) (Byte4 xc0 xa8 x01 x0a)] |}.
Proof.
  apply (X6_subscriber_insert_lookup_roundtrip inner
           {| sub_SAddr := IPv4 xc0 xa8 x01 x0a; sub_Ifindex := 7; sub_IsRemote := true |}
           {| SAddr := Byte4 xc0 xa8 x01 x0a |} [] [] [] []).
  reflexivity.
Defined.

(** X7: a refused subscriber insert is reported once and stays
    recognisable.  When the update fails (the key exists, the table is full,
    or anything else), [Insert] returns that failure wrapped as "failed to
    insert multicast subscriber", after the one update call and with no
    retry; the wrapper answers [errors.Is] for every sentinel exactly as the
    service's error does. *)
Theorem X7_subscriber_insert_failure
  (m : SubscriberV4InnerMap) (s : SubscriberV4) (key : SubscriberV4Key) (e : svc_error)
  (rest : list (Resp SubscriberV4Key SubscriberV4Val)) (tr : list (Call SubscriberV4Val)) :
  NewSubscriberV4KeyFromNetIPAddr (sub_SAddr s) = Some (key, None) ->
  exists err v,
    SubscriberV4InnerMap_Insert m s {| script := RespErr (Some e) :: rest; trace := tr |}
    = Returns (Some err)
              {| script := rest;
                 trace := tr ++ [CallUpdate (sub_Map m) (SAddr key) v UpdateNoExist] |}
    /\ err = Errorf "failed to insert multicast subscriber: %w" [] (Some (FromSvc e))
    /\ forall t, errors_Is err t = svc_Is e t.
Proof.
  intros Hk. eexists. eexists. split; [| split; [reflexivity |]].
  - unfold SubscriberV4InnerMap_Insert, bind, or_panic. rewrite Hk. reflexivity.
  - intros t. reflexivity.
Qed.

Lemma X7_subscriber_insert_failure_witness :
  exists err v,
    SubscriberV4InnerMap_Insert inner
      {| sub_SAddr := IPv4 xc0 xa8 x01 x0a; sub_Ifindex := 7; sub_IsRemote := false |}
      {| script := RespErr (Some (SvcWrap "update" (SvcSentinel ErrKeyExist))) :: [];
         trace := [] |}
    = Returns (Some err)
              {| script := [];
                 trace := [] ++ [CallUpdate (sub_Map inner)
                                            (SAddr {| SAddr := Byte4 xc0 xa8 x01 x0a |}) v
                                            UpdateNoExist] |}
    /\ err = Errorf "failed to insert multicast subscriber: %w" []
                    (Some (FromSvc (SvcWrap "update" (SvcSentinel ErrKeyExist))))
    /\ forall t, errors_Is err t = svc_Is (SvcWrap "update" (SvcSentinel ErrKeyExist)) t.
Proof.
  apply (X7_subscriber_insert_failure inner
           {| sub_SAddr := IPv4 xc0 xa8 x01 x0a; sub_Ifindex := 7; sub_IsRemote := false |}
           {| SAddr := Byte4 xc0 xa8 x01 x0a |}
           (SvcWrap "update" (SvcSentinel ErrKeyExist)) [] []).
  reflexivity.
Defined.

(** X8: a failed subscriber lookup names the address and keeps the cause.
    When the table's lookup fails, [Lookup] returns no record and an error
    whose message takes the looked-up address: "no subscriber with source
    address" when the failure is [ErrKeyNotExist], "failed to lookup
    subscriber" otherwise; either way the cause is wrapped, so [errors.Is]
    answers as for the service's error, after the one lookup call. *)
Theorem X8_subscriber_lookup_failure
  (m : SubscriberV4InnerMap) (Src : Addr) (key : SubscriberV4Key) (e : svc_error)
  (rest : list (Resp SubscriberV4Key SubscriberV4Val)) (tr : list (Call SubscriberV4Val)) :
  NewSubscriberV4KeyFromNetIPAddr Src = Some (key, None) ->
  let err := Errorf (if svc_Is e ErrKeyNotExist
                     then "no subscriber with source address %s: %w"
                     else "failed to lookup subscriber %s: %w")
                    [Src] (Some (FromSvc e)) in
  SubscriberV4InnerMap_Lookup m Src {| script := RespLookup (inl e) :: rest; trace := tr |}
  = Returns (inl err)
            {| script := rest; trace := tr ++ [CallLookup (sub_Map m) (SAddr key)] |}
  /\ wraps_with_addr err Src = true
  /\ forall t, errors_Is err t = svc_Is e t.
Proof.
  intros Hk err. split; [| split].
  - unfold SubscriberV4InnerMap_Lookup, bind, or_panic. rewrite Hk. subst err.
    cbn. destruct (svc_Is e ErrKeyNotExist); reflexivity.
  - subst err. rewrite (NewSubscriberV4KeyFromNetIPAddr_ok _ _ Hk).
    cbn [wraps_with_addr existsb Addr_eqb]. rewrite byte4_eqb_refl. reflexivity.
  - intros t. reflexivity.
Qed.

Lemma X8_subscriber_lookup_failure_witness :
  SubscriberV4InnerMap_Lookup inner (IPv4 xc0 xa8 x01 x0a)
    {| script := RespLookup (inl (SvcSentinel ErrKeyNotExist)) :: []; trace := [] |}
  = Returns (inl (Errorf "no subscriber with source address %s: %w"
                         [IPv4 xc0 xa8 x01 x0a]
                         (Some (FromSvc (SvcSentinel ErrKeyNotExist)))))
            {| script := [];
               trace := [] ++ [CallLookup (sub_Map inner)
                                          (SAddr {| SAddr := Byte4 xc0 xa8 x01 x0a |})] |}.
Proof.
  apply (X8_subscriber_lookup_failure inner (IPv4 xc0 xa8 x01 x0a)
           {| SAddr := Byte4 xc0 xa8 x01 x0a |} (SvcSentinel ErrKeyNotExist) [] []).
  reflexivity.
Defined.

(** ** Lookup in the outer map *)

(** X9: [Lookup] in the outer map resolves the handle that the table
    returns.  For a valid group address it makes one lookup under the four
    octets of the address and hands the stored handle id, unchanged, to
    [MapFromID]: the accessor it returns is bound to the map that the id
    resolves to, and a failed resolution comes back wrapped, with no
    accessor.  On the other side, the handle that [Insert] registers for a
    new inner map whose descriptor fits 32 bits is that descriptor. *)
Theorem X9_group_lookup_resolves_stored_handle
  (MapFromID : Z -> svc_error + ebpf_Map) (m : GroupV4OuterMap) (group : Addr)
  (key : GroupV4Key) (val : GroupV4Val) (d : Z)
  (rest rest' : list (Resp GroupV4Key GroupV4Val)) (tr tr' : list (Call GroupV4Val)) :
  NewGroupV4KeyFromNetIPAddr group = Some (key, None) ->
  (0 <= d < 2 ^ 32)%Z ->
  GroupV4OuterMap_Lookup MapFromID m group
    {| script := RespLookup (inr val) :: rest; trace := tr |}
  = Returns
      (match MapFromID (FD val) with
       | inl e => inl (Errorf "failed to convert SubscriberV4InnerMap FD to *ebpf.Map: %w" []
                              (Some (FromSvc e)))
       | inr subMap => inr {| sub_Map := subMap |}
       end)
      {| script := rest; trace := tr ++ [CallLookup (Map m) (Group key)] |}
  /\ GroupV4OuterMap_Insert m group
       {| script := RespOpen (inr d) :: RespErr None :: rest'; trace := tr' |}
     = Returns None
         {| script := rest';
            trace := tr' ++ [CallOpenOrCreate "cilium_mcast_subscriber_v4_inner";
                             CallUpdate (Map m) (Group key) {| FD := d |} UpdateNoExist] |}.
Proof.
  intros Hk Hd. split.
  - unfold GroupV4OuterMap_Lookup, bind, or_panic. rewrite Hk. cbn.
    destruct (MapFromID (FD val)); reflexivity.
  - rewrite (Insert_registered m group key d rest' tr' Hk).
    unfold uint32. rewrite Z.mod_small by exact Hd. reflexivity.
Qed.

Lemma X9_group_lookup_resolves_stored_handle_witness :
  GroupV4OuterMap_Lookup
    (fun id => if Z.eqb id 7 then inr {| Name := "cilium_mcast_subscriber_v4_inner";
                                         fd := Some 9%Z |}
               else inl (SvcErrno 2))
    (outer true) (IPv4 xe0 x00 x00 x05)
    {| script := RespLookup (inr {| FD := 7 |}) :: []; trace := [] |}
  = Returns
      (match (fun id => if Z.eqb id 7
                        then inr {| Name := "cilium_mcast_subscriber_v4_inner";
                                    fd := Some 9%Z |}
                        else inl (SvcErrno 2)) (FD {| FD := 7 |}) with
       | inl e => inl (Errorf "failed to convert SubscriberV4InnerMap FD to *ebpf.Map: %w" []
                              (Some (FromSvc e)))
       | inr subMap => inr {| sub_Map := subMap |}
       end)
      {| script := [];
         trace := [] ++ [CallLookup (Map (outer true)) (Group (gkey x05))] |}
  /\ GroupV4OuterMap_Insert (outer true) (IPv4 xe0 x00 x00 x05)
       {| script := RespOpen (inr 7%Z) :: RespErr None :: []; trace := [] |}
     = Returns None
         {| script := [];
            trace := [] ++ [CallOpenOrCreate "cilium_mcast_subscriber_v4_inner";
                            CallUpdate (Map (outer true)) (Group (gkey x05)) {| FD := 7 |}
                                       UpdateNoExist] |}.
Proof.
  apply (X9_group_lookup_resolves_stored_handle
           (fun id => if Z.eqb id 7 then inr {| Name := "cilium_mcast_subscriber_v4_inner";
                                                fd := Some 9%Z |}
                      else inl (SvcErrno 2))
           (outer true) (IPv4 xe0 x00 x00 x05) (gkey x05) {| FD := 7 |} 7 [] [] [] []).
  - reflexivity.
  - lia.
Defined.



(** ** Bounds of the cursor loop *)

Lemma batchLoop_lengths {K V} (fuel : nat) :
  forall (m : ebpf_Map) (keys : list K) (vals : list V) (count : nat) (w : World K V)
         ks vs c e w',
    batchLoop fuel m keys vals count w = Returns (ks, vs, c, e) w' ->
    List.length ks = List.length keys /\ List.length vs = List.length vals.
Proof.
  induction fuel as [| fuel IH]; intros m keys vals count w ks vs c e w' H.
  - discriminate H.
  - cbn [batchLoop] in H. unfold bind at 1 in H. rewrite BatchLookup_cases in H.
    destruct w as [[| resp rest] tr]; cbn [script trace] in *; [discriminate H |].
    destruct resp as [| | | entries err |]; try discriminate H.
    cbv zeta iota beta in H. unfold ret in H.
    destruct err as [err |].
    + destruct (svc_Is err ErrKeyNotExist); inversion H; subst;
        rewrite !overwrite_length; split; reflexivity.
    + apply IH in H. rewrite !overwrite_length in H. exact H.
Qed.

Lemma after_fetches_spec {K V} (chunks : list (list (K * V))) :
  forall (keys : list K) (vals : list V) (count : nat),
    List.length (fst (fst (after_fetches keys vals count chunks))) = List.length keys
    /\ List.length (snd (fst (after_fetches keys vals count chunks))) = List.length vals
    /\ snd (after_fetches keys vals count chunks)
       = count + fetched_count (Nat.min (List.length keys) (List.length vals)) chunks.
Proof.
  induction chunks as [| entries chunks IH]; intros keys vals count.
  - cbn. repeat split. lia.
  - cbn [after_fetches fetched_count fold_right].
    destruct (IH (overwrite (map fst (firstn (Nat.min (List.length entries)
                                               (Nat.min (List.length keys) (List.length vals)))
                                             entries)) keys)
                 (overwrite (map snd (firstn (Nat.min (List.length entries)
                                               (Nat.min (List.length keys) (List.length vals)))
                                             entries)) vals)
                 (count + Nat.min (List.length entries)
                                  (Nat.min (List.length keys) (List.length vals))))
      as [H1 [H2 H3]].
    rewrite !overwrite_length in *. repeat split; try assumption.
    rewrite H3. unfold fetched_count. lia.
Qed.

(** X11: the batch enumerations are bounded and all-or-nothing, whatever the
    table service answers.  A list that [ListBatch] returns never has more
    addresses than [MaxGroups], the size of its buffer, and a list that the
    subscriber [List] returns never more records than [MaxSubscribers]; and
    when either returns an error, its list is empty. *)
Theorem X11_batch_lists_bounded
  (gm : GroupV4OuterMap) (sm : SubscriberV4InnerMap)
  (gw gw' : World GroupV4Key GroupV4Val) (sw sw' : World SubscriberV4Key SubscriberV4Val)
  (gout : list Addr) (sout : list SubscriberV4) (gerr serr : option error) :
  GroupV4OuterMap_ListBatch gm gw = Returns (gout, gerr) gw' ->
  SubscriberV4InnerMap_List sm sw = Returns (sout, serr) sw' ->
  List.length gout <= MaxGroups /\ (gerr <> None -> gout = [])
  /\ List.length sout <= MaxSubscribers /\ (serr <> None -> sout = []).
Proof.
  intros Hg Hs.
  assert (G : List.length gout <= MaxGroups /\ (gerr <> None -> gout = [])).
  { unfold GroupV4OuterMap_ListBatch in Hg. unfold bind at 1 in Hg.
    destruct (with_fuel _ gw) as [[[[ks vs] c] e] w1 | |] eqn:E; try discriminate Hg.
    unfold with_fuel in E. apply batchLoop_lengths in E. destruct E as [E _].
    rewrite repeat_length in E.
    destruct e as [e |]; unfold ret in Hg.
    - inversion Hg; subst. split; [cbn; lia | reflexivity].
    - rewrite groupsOf_eq in Hg. inversion Hg; subst. split; [| congruence].
      cbn [app]. rewrite length_map, length_firstn. lia. }
  assert (S : List.length sout <= MaxSubscribers /\ (serr <> None -> sout = [])).
  { unfold SubscriberV4InnerMap_List in Hs. unfold bind at 1 in Hs.
    destruct (with_fuel _ sw) as [[[[ks vs] c] e] w1 | |] eqn:E; try discriminate Hs.
    unfold with_fuel in E. apply batchLoop_lengths in E. destruct E as [_ E].
    rewrite repeat_length in E.
    destruct e as [e |]; unfold ret in Hs.
    - inversion Hs; subst. split; [cbn; lia | reflexivity].
    - rewrite subscribersOf_eq in Hs. inversion Hs; subst. split; [| congruence].
      cbn [app]. rewrite length_map, length_firstn. lia. }
  tauto.
Qed.

Lemma X11_batch_lists_bounded_witness :
  List.length [IPv4 xe0 x00 x00 x03; IPv4 xe0 x00 x00 x02; IPv4 x00 x00 x00 x00] <= MaxGroups
  /\ (@None error <> None ->
      [IPv4 xe0 x00 x00 x03; IPv4 xe0 x00 x00 x02; IPv4 x00 x00 x00 x00] = [])
  /\ List.length (@nil SubscriberV4) <= MaxSubscribers
  /\ (Some (FromSvc (SvcErrno 1)) <> None -> @nil SubscriberV4 = []).
Proof.
  apply (X11_batch_lists_bounded (outer true) inner
           (world (batch_script [[gentry x01; gentry x02]] [gentry x03]))
           {| script := [];
              trace := [CallBatchLookup (Map (outer true)) MaxGroups MaxGroups;
                        CallBatchLookup (Map (outer true)) MaxGroups MaxGroups] |}
           (world [fetch_more [sentry x01 0]; RespBatch [] (Some (SvcErrno 1))])
           {| script := [];
              trace := [CallBatchLookup (sub_Map inner) MaxSubscribers MaxSubscribers;
                        CallBatchLookup (sub_Map inner) MaxSubscribers MaxSubscribers] |});
    vm_compute; reflexivity.
Defined.

(** X12: how many addresses a completed batch enumeration returns.  When
    the fetches succeed up to one that reports "no more entries",
    [ListBatch] returns a list, with no error, whose length is the sum of
    the counts of all the fetches, capped at [MaxGroups]: every fetch adds
    its count, whether or not its entries are still in the buffer. *)
Theorem X12_batch_list_length
  (m : GroupV4OuterMap) (chunks : list (list (GroupV4Key * GroupV4Val)))
  (last : list (GroupV4Key * GroupV4Val))
  (rest : list (Resp GroupV4Key GroupV4Val)) (tr : list (Call GroupV4Val)) :
  exists out,
    GroupV4OuterMap_ListBatch m {| script := batch_script chunks last ++ rest; trace := tr |}
    = Returns (out, None)
              {| script := rest;
                 trace := tr ++ repeat (CallBatchLookup (Map m) MaxGroups MaxGroups)
                                       (S (List.length chunks)) |}
    /\ List.length out = Nat.min MaxGroups (fetched_count MaxGroups (chunks ++ [last])).
Proof.
  unfold batch_script. rewrite <- app_assoc. cbn [app].
  rewrite ListBatch_run. cbn [svc_Is sentinel_eqb].
  pose proof (after_fetches_spec (chunks ++ [last]) (repeat (zero : GroupV4Key) MaxGroups)
                (repeat (zero : GroupV4Val) MaxGroups) 0) as [H1 [_ H3]].
  destruct (after_fetches _ _ 0 (chunks ++ [last])) as [[ks vs] c].
  cbn [fst snd] in *. rewrite !repeat_length, Nat.min_id in *.
  eexists. split; [reflexivity |].
  rewrite length_map, length_firstn, H1, H3. lia.
Qed.

(** ** Enumerations that one fetch serves *)

Lemma after_fetches_app {K V} (xs ys : list (list (K * V))) :
  forall (keys : list K) (vals : list V) (count : nat),
    after_fetches keys vals count (xs ++ ys)
    = after_fetches (fst (fst (after_fetches keys vals count xs)))
                    (snd (fst (after_fetches keys vals count xs)))
                    (snd (after_fetches keys vals count xs)) ys.
Proof.
  induction xs as [| x xs IH]; intros keys vals count.
  - reflexivity.
  - cbn [app after_fetches]. apply IH.
Qed.

Lemma after_fetches_empties {K V} (n : nat) :
  forall (keys : list K) (vals : list V) (count : nat),
    after_fetches keys vals count (repeat (@nil (K * V)) n) = (keys, vals, count).
Proof.
  induction n as [| n IH]; intros keys vals count.
  - reflexivity.
  - cbn [repeat after_fetches List.length Nat.min firstn map].
    rewrite !overwrite_nil, Nat.add_0_r. apply IH.
Qed.

Lemma after_one_delivery {K V} `{GoZero K} `{GoZero V} (cap a b : nat) (entries : list (K * V)) :
  List.length entries <= cap ->
  after_fetches (repeat (zero : K) cap) (repeat (zero : V) cap) 0
                (repeat [] a ++ entries :: repeat [] b)
  = (overwrite (map fst entries) (repeat zero cap),
     overwrite (map snd entries) (repeat zero cap), List.length entries).
Proof.
  intros Hn. rewrite after_fetches_app, after_fetches_empties. cbn [fst snd].
  change (entries :: repeat [] b) with ([entries] ++ repeat [] b).
  rewrite after_fetches_app, after_single_fetch by assumption. cbn [fst snd].
  apply after_fetches_empties.
Qed.

(** X13: fetches that deliver nothing do no harm.  When the fetches of a
    completed enumeration deliver entries in at most one call, before or
    after any number of empty ones, [ListBatch] returns exactly the
    addresses of that call in order, for a table of up to [MaxGroups]
    groups (an empty table gives an empty list), and the subscriber [List]
    exactly its decoded records, after one call per fetch. *)
Theorem X13_one_delivering_fetch
  (gm : GroupV4OuterMap) (sm : SubscriberV4InnerMap) (a b : nat)
  (gchunks : list (list (GroupV4Key * GroupV4Val)))
  (glast gentries : list (GroupV4Key * GroupV4Val))
  (schunks : list (list (SubscriberV4Key * SubscriberV4Val)))
  (slast sentries : list (SubscriberV4Key * SubscriberV4Val))
  (grest : list (Resp GroupV4Key GroupV4Val)) (gtr : list (Call GroupV4Val))
  (srest : list (Resp SubscriberV4Key SubscriberV4Val)) (str : list (Call SubscriberV4Val)) :
  gchunks ++ [glast] = repeat [] a ++ gentries :: repeat [] b ->
  schunks ++ [slast] = repeat [] a ++ sentries :: repeat [] b ->
  List.length gentries <= MaxGroups ->
  List.length sentries <= MaxSubscribers ->
  GroupV4OuterMap_ListBatch gm
    {| script := batch_script gchunks glast ++ grest; trace := gtr |}
  = Returns (map group_addr gentries, None)
            {| script := grest;
               trace := gtr ++ repeat (CallBatchLookup (Map gm) MaxGroups MaxGroups)
                                      (S (List.length gchunks)) |}
  /\ SubscriberV4InnerMap_List sm
       {| script := batch_script schunks slast ++ srest; trace := str |}
     = Returns (map (fun e => subscriber_of (snd e)) sentries, None)
               {| script := srest;
                  trace := str ++ repeat (CallBatchLookup (sub_Map sm) MaxSubscribers
                                                          MaxSubscribers)
                                         (S (List.length schunks)) |}.
Proof.
  intros Hg Hs Lg Ls. unfold batch_script. rewrite <- !app_assoc. cbn [app]. split.
  - rewrite ListBatch_run. cbn [svc_Is sentinel_eqb].
    rewrite Hg, after_one_delivery by assumption.
    replace (List.length gentries) with (List.length (map fst gentries)) at 1
      by apply length_map.
    rewrite firstn_overwrite by (rewrite length_map, repeat_length; assumption).
    rewrite map_map. reflexivity.
  - rewrite SubscriberV4InnerMap_List_run. cbn [svc_Is sentinel_eqb].
    rewrite Hs, after_one_delivery by assumption.
    replace (List.length sentries) with (List.length (map snd sentries)) at 1
      by apply length_map.
    rewrite firstn_overwrite by (rewrite length_map, repeat_length; assumption).
    rewrite map_map. reflexivity.
Qed.

Lemma X13_one_delivering_fetch_witness :
  GroupV4OuterMap_ListBatch (outer true)
    {| script := batch_script [[]; [gentry x01; gentry x02]] [] ++ []; trace := [] |}
  = Returns (map group_addr [gentry x01; gentry x02], None)
            {| script := [];
               trace := [] ++ repeat (CallBatchLookup (Map (outer true)) MaxGroups MaxGroups)
                                     (S (List.length [@nil (GroupV4Key * GroupV4Val);
                                                      [gentry x01; gentry x02]])) |}
  /\ SubscriberV4InnerMap_List inner
       {| script := batch_script [[]; []] [] ++ []; trace := [] |}
     = Returns (map (fun e => subscriber_of (snd e))
                    (@nil (SubscriberV4Key * SubscriberV4Val)), None)
               {| script := [];
                  trace := [] ++ repeat (CallBatchLookup (sub_Map inner) MaxSubscribers
                                                         MaxSubscribers)
                                        (S (List.length [@nil (SubscriberV4Key *
                                                               SubscriberV4Val); []])) |}.
Proof.
  apply (X13_one_delivering_fetch (outer true) inner 1 1
           [[]; [gentry x01; gentry x02]] [] [gentry x01; gentry x02]
           [[]; []] [] [] [] [] [] []);
    try reflexivity; unfold MaxGroups, MaxSubscribers; cbn [List.length]; lia.
Defined.

(** X14: the iterator strategy has no bound.  When [List] runs without
    batch support and the iteration ends by exhaustion, it returns the
    address of every entry the iterator yielded, in the order yielded and
    with no error, however many there are, after one step per entry and one
    for the end. *)
Theorem X14_iterator_list_is_complete
  (m : GroupV4OuterMap) (entries : list (GroupV4Key * GroupV4Val))
  (rest : list (Resp GroupV4Key GroupV4Val)) (tr : list (Call GroupV4Val)) :
  batchLookupSupported m = false ->
  GroupV4OuterMap_List m {| script := iter_script entries ++ iter_end None :: rest; trace := tr |}
  = Returns (map group_addr entries, None)
            {| script := rest;
               trace := tr ++ repeat (CallNext (Map m)) (S (List.length entries)) |}.
Proof.
  intros Hb. unfold GroupV4OuterMap_List. rewrite Hb.
  apply (ListIterator_run m entries None rest tr).
Qed.

Lemma X14_iterator_list_is_complete_witness :
  GroupV4OuterMap_List (outer false)
    {| script := iter_script (repeat (gentry x01) 1030) ++ iter_end None :: []; trace := [] |}
  = Returns (map group_addr (repeat (gentry x01) 1030), None)
            {| script := [];
               trace := [] ++ repeat (CallNext (Map (outer false)))
                                     (S (List.length (repeat (gentry x01) 1030))) |}.
Proof.
  apply (X14_iterator_list_is_complete (outer false) (repeat (gentry x01) 1030) [] []).
  reflexivity.
Defined.

(** ** The life of an outer map *)


(** X16: the stop hook closes what the start hook opened.  After a start
    that succeeded, the stop hook issues one close, on the map with the
    descriptor that the start obtained, and returns what the close returns,
    unchanged; over its life the map has then made three calls: the open,
    the probe and the close. *)
Theorem X16_stop_closes_started_map
  (groupMap : GroupV4OuterMap) (d : Z) (entries : list (GroupV4Key * GroupV4Val))
  (e r : option svc_error)
  (rest : list (Resp GroupV4Key GroupV4Val)) (tr : list (Call GroupV4Val)) :
  exists started w1,
    OnStart groupMap
      {| script := RespOpen (inr d) :: RespBatch entries e :: RespErr r :: rest; trace := tr |}
    = Returns (started, None) w1
    /\ OnStop started w1
       = Returns (option_map FromSvc r)
           {| script := rest;
              trace := tr ++ [CallOpenOrCreate (Name (Map groupMap));
                              CallBatchLookup {| Name := Name (Map groupMap); fd := Some d |}
                                              1 1;
                              CallClose {| Name := Name (Map groupMap); fd := Some d |}] |}.
Proof.
  eexists. eexists. split.
  - unfold OnStart. unfold bind at 1. unfold OpenOrCreate, bind at 1, call.
    cbn [script trace]. unfold ret at 1. cbn [Map].
    unfold bind at 1. rewrite haveBatchLookupSupport_run. unfold ret. reflexivity.
  - unfold OnStop, bind, Close, call. cbn. rewrite <- !app_assoc. reflexivity.
Qed.

(** ** No operation panics *)

Lemma bind_no_panic {K V A B} (c : M K V A) (k : A -> M K V B) (w : World K V) :
  c w <> Panics ->
  (forall a w', c w = Returns a w' -> k a w' <> Panics) ->
  bind c k w <> Panics.
Proof.
  intros Hc Hk. unfold bind. destruct (c w) as [a w' | |] eqn:E.
  - apply Hk. reflexivity.
  - exfalso. apply Hc. reflexivity.
  - discriminate.
Qed.

Lemma call_no_panic {K V} (c : Call V) (w : World K V) : call c w <> Panics.
Proof. unfold call. destruct (script w); discriminate. Qed.

Lemma ret_no_panic {K V A} (a : A) (w : World K V) : ret a w <> Panics.
Proof. discriminate. Qed.

Lemma starve_no_panic {K V A} (w : World K V) : @starve K V A w <> Panics.
Proof. discriminate. Qed.

Create HintDb no_panic.
#[local] Hint Resolve call_no_panic ret_no_panic starve_no_panic : no_panic.

Ltac no_panic :=
  repeat first
    [ solve [auto with no_panic]
    | apply bind_no_panic; [| intros ? ? ?]
    | match goal with
      | |- (match ?x with _ => _ end) _ <> Panics => destruct x
      | |- (if ?x then _ else _) _ <> Panics => destruct x
      | |- (let (_, _) := ?x in _) _ <> Panics => destruct x
      end ].

Lemma OpenOrCreate_no_panic {K V} (m : ebpf_Map) (w : World K V) :
  @OpenOrCreate K V m w <> Panics.
Proof. unfold OpenOrCreate. no_panic. Qed.


Lemma LoadRegisterMap_no_panic {K V} (name : string) (w : World K V) :
  @LoadRegisterMap K V name w <> Panics.
Proof. unfold LoadRegisterMap. no_panic. Qed.

Lemma Update_no_panic {K V} (m : ebpf_Map) (key : byte4) (val : V) (f : UpdateFlags)
  (w : World K V) : @Update K V m key val f w <> Panics.
Proof. unfold Update. no_panic. Qed.

Lemma Lookup_no_panic {K V} (m : ebpf_Map) (key : byte4) (val : V) (w : World K V) :
  @Lookup K V m key val w <> Panics.
Proof. unfold Lookup. no_panic. Qed.

Lemma Delete_no_panic {K V} (m : ebpf_Map) (key : byte4) (w : World K V) :
  @Delete K V m key w <> Panics.
Proof. unfold Delete. no_panic. Qed.

Lemma Close_no_panic {K V} (m : ebpf_Map) (w : World K V) : @Close K V m w <> Panics.
Proof. unfold Close. no_panic. Qed.

Lemma BatchLookup_no_panic {K V} (m : ebpf_Map) (keys : list K) (vals : list V)
  (w : World K V) : BatchLookup m keys vals w <> Panics.
Proof. unfold BatchLookup. no_panic. Qed.

Lemma Next_no_panic {K V} (iter : @MapIterator) (w : World K V) : Next iter w <> Panics.
Proof. unfold Next. no_panic. Qed.

#[local] Hint Resolve OpenOrCreate_no_panic LoadRegisterMap_no_panic Update_no_panic
  Lookup_no_panic Delete_no_panic Close_no_panic BatchLookup_no_panic Next_no_panic
  : no_panic.

Lemma batchLoop_no_panic {K V} (fuel : nat) :
  forall (m : ebpf_Map) (keys : list K) (vals : list V) (count : nat) (w : World K V),
    batchLoop fuel m keys vals count w <> Panics.
Proof.
  induction fuel as [| fuel IH]; intros m keys vals count w; cbn [batchLoop].
  - discriminate.
  - no_panic.
Qed.

Lemma iterLoop_no_panic (fuel : nat) :
  forall (iter : MapIterator) (out : list Addr) (w : World GroupV4Key GroupV4Val),
    iterLoop fuel iter out w <> Panics.
Proof.
  induction fuel as [| fuel IH]; intros iter out w; cbn [iterLoop].
  - discriminate.
  - no_panic.
Qed.

Lemma haveBatchLookupSupport_no_panic (m : ebpf_Map) (w : World GroupV4Key GroupV4Val) :
  haveBatchLookupSupport m w <> Panics.
Proof. unfold haveBatchLookupSupport. no_panic. Qed.

Lemma or_panic_group_key (a : Addr) (w : World GroupV4Key GroupV4Val) :
  or_panic (NewGroupV4KeyFromNetIPAddr a) w <> Panics.
Proof.
  destruct (NewGroupV4KeyFromNetIPAddr_cases a) as [k [e ->]]. discriminate.
Qed.

Lemma or_panic_subscriber_key (a : Addr) (w : World SubscriberV4Key SubscriberV4Val) :
  or_panic (NewSubscriberV4KeyFromNetIPAddr a) w <> Panics.
Proof.
  destruct (NewSubscriberV4KeyFromNetIPAddr_cases a) as [k [e ->]]. discriminate.
Qed.

#[local] Hint Resolve batchLoop_no_panic iterLoop_no_panic haveBatchLookupSupport_no_panic
  or_panic_group_key or_panic_subscriber_key : no_panic.



(** X18: a failed [Insert] into the outer map stays recognisable.  Whether
    the inner map cannot be created or its registration is refused, the
    error that [Insert] returns wraps the failure of the table service, so
    [errors.Is] answers for every sentinel exactly as it does for that
    failure: a duplicate group is an [ErrKeyExist] for the caller. *)
Theorem X18_insert_failure_keeps_cause
  (m : GroupV4OuterMap) (group : Addr) (key : GroupV4Key) (d : Z) (e : svc_error)
  (closed : option svc_error)
  (rest : list (Resp GroupV4Key GroupV4Val)) (tr : list (Call GroupV4Val)) :
  NewGroupV4KeyFromNetIPAddr group = Some (key, None) ->
  (exists err w',
     GroupV4OuterMap_Insert m group {| script := RespOpen (inl e) :: rest; trace := tr |}
     = Returns (Some err) w'
     /\ trace w' = tr ++ [CallOpenOrCreate "cilium_mcast_subscriber_v4_inner"]
     /\ forall t, errors_Is err t = svc_Is e t)
  /\ (exists err w',
        GroupV4OuterMap_Insert m group
          {| script := RespOpen (inr d) :: RespErr (Some e) :: RespErr closed :: rest;
             trace := tr |}
        = Returns (Some err) w'
        /\ forall t, errors_Is err t = svc_Is e t).
Proof.
  intros Hk. split.
  - eexists. eexists. split; [| split].
    + unfold GroupV4OuterMap_Insert, bind, or_panic. rewrite Hk. reflexivity.
    + reflexivity.
    + intros t. reflexivity.
  - eexists. eexists. split.
    + unfold GroupV4OuterMap_Insert, bind, or_panic. rewrite Hk. reflexivity.
    + intros t. reflexivity.
Qed.

Lemma X18_insert_failure_keeps_cause_witness :
  (exists err w',
     GroupV4OuterMap_Insert (outer true) (IPv4 xe0 x00 x00 x05)
       {| script := RespOpen (inl (SvcSentinel ErrKeyExist)) :: []; trace := [] |}
     = Returns (Some err) w'
     /\ trace w' = [] ++ [CallOpenOrCreate "cilium_mcast_subscriber_v4_inner"]
     /\ forall t, errors_Is err t = svc_Is (SvcSentinel ErrKeyExist) t)
  /\ (exists err w',
        GroupV4OuterMap_Insert (outer true) (IPv4 xe0 x00 x00 x05)
          {| script := RespOpen (inr 7%Z) :: RespErr (Some (SvcSentinel ErrKeyExist))
                       :: RespErr None :: [];
             trace := [] |}
        = Returns (Some err) w'
        /\ forall t, errors_Is err t = svc_Is (SvcSentinel ErrKeyExist) t).
Proof.
  apply (X18_insert_failure_keeps_cause (outer true) (IPv4 xe0 x00 x00 x05) (gkey x05) 7
           (SvcSentinel ErrKeyExist) None [] []).
  reflexivity.
Defined.
